(** * CoachNova onboarding wizard: the StepPanel engine of [pages/index.tsx]

    A shallow embedding of the wizard's step panel: its answer state, the
    progress effect, the [goNext] guard, the reset effect that runs when the
    step id changes, and the preview synthesis ([commitPreviewFromSliders]
    and [computePreviewGradient]).

    Conventions of the embedding.
    - A JavaScript string is the list of its UTF-16 code units.
    - A JavaScript number that holds a slider value, an index or a count is
      an integer ([Z]); the progress fractions are exact rationals ([Q]).
      The gradient arithmetic is given twice: in exact rationals, which
      agree with the doubles of the code up to the rounding of the last
      digit on the values the sliders give, and in IEEE doubles (module
      [Double]), where overflow, NaN and the infinities are what they are
      in the code. The two print the same gradient for every slider
      triple, which is checked on all thousand of them.
    - React state is an explicit record; an event handler is a function
      from the state it closes over to the next state, together with the
      calls it makes on its surroundings ([alert], the callbacks of the
      parent component, timers). *)

From Stdlib Require Import ZArith QArith Qminmax Qround Lqa Lia.
From Stdlib Require Import List String Ascii Bool.
From Stdlib Require PrimFloat FloatOps Uint63.
From stdpp Require Import base decidable countable list gmap.
Import ListNotations.

Local Open Scope Z_scope.

(* ===================================================================== *)
(** ** JavaScript strings *)
(* ===================================================================== *)

Module JsString.

(** A string is a sequence of 16-bit code units. *)
Abbreviation t := (list N).

(** An ASCII literal: one code unit per character. *)
Definition lit (s : string) : t :=
  List.map N_of_ascii (list_ascii_of_string s).

(** The code units of the source text that are not written as literals. *)
Definition dquote : N := 34%N.      (* U+0022, the straight double quote *)
Definition ldquo  : N := 8220%N.    (* U+201C, left curly double quote   *)
Definition rdquo  : N := 8221%N.    (* U+201D, right curly double quote  *)
Definition rsquo  : N := 8217%N.    (* U+2019, right curly single quote  *)
Definition mdash  : N := 8212%N.    (* U+2014, em dash                   *)
Definition qmark  : N := 63%N.      (* U+003F, question mark             *)

(** WhiteSpace and LineTerminator code points of ECMAScript, the ones
    [String.prototype.trim] strips. *)
Definition isWhiteSpace (c : N) : bool :=
  (  (9 <=? c) && (c <=? 13)
  || (c =? 32) || (c =? 160) || (c =? 5760)
  || (8192 <=? c) && (c <=? 8202)
  || (c =? 8232) || (c =? 8233) || (c =? 8239) || (c =? 8287)
  || (c =? 12288) || (c =? 65279))%N.

Fixpoint trimStart (s : t) : t :=
  match s with
  | c :: s' => if isWhiteSpace c then trimStart s' else s
  | [] => []
  end.

(** [s.trim()] *)
Definition trim (s : t) : t := rev (trimStart (rev (trimStart s))).

(** [s.trim() === ''] *)
Definition trimsToEmpty (s : t) : bool :=
  match trim s with [] => true | _ :: _ => false end.

Definition endsWith (pat s : t) : bool :=
  (length pat <=? length s)%nat
  && bool_decide (drop (length s - length pat) s = pat).

(** [s.replace(/pat$/, repl)] for a pattern [pat] of literal characters
    and a replacement without [$] sequences: the only place the anchored
    pattern can match is the end of the string. *)
Definition replaceAtEnd (pat repl s : t) : t :=
  if endsWith pat s then take (length s - length pat) s ++ repl else s.

(** Truthiness of a [string | null] value: [null] and [''] are falsy. *)
Definition truthy (o : option t) : bool :=
  match o with Some (_ :: _) => true | _ => false end.

(** Decimal rendering of an integer, as a template literal prints it. *)
Fixpoint digits (u : Decimal.uint) : t :=
  match u with
  | Decimal.Nil => []
  | Decimal.D0 u' => 48%N :: digits u'
  | Decimal.D1 u' => 49%N :: digits u'
  | Decimal.D2 u' => 50%N :: digits u'
  | Decimal.D3 u' => 51%N :: digits u'
  | Decimal.D4 u' => 52%N :: digits u'
  | Decimal.D5 u' => 53%N :: digits u'
  | Decimal.D6 u' => 54%N :: digits u'
  | Decimal.D7 u' => 55%N :: digits u'
  | Decimal.D8 u' => 56%N :: digits u'
  | Decimal.D9 u' => 57%N :: digits u'
  end.

Definition ofInt (z : Z) : t :=
  match Z.to_int z with
  | Decimal.Pos u => digits u
  | Decimal.Neg u => 45%N :: digits u
  end.

End JsString.

Import JsString.

(* ===================================================================== *)
(** ** Preview synthesis: the text templates *)
(* ===================================================================== *)

(** The three message/reflection pairs of [commitPreviewFromSliders]. *)

Definition defaultMsg : JsString.t :=
  ldquo :: lit "Let" ++ rsquo :: lit "s get to the real issue. What" ++
  rsquo :: lit "s the cost of not changing this?" ++ [rdquo].

Definition defaultReflection : JsString.t :=
  ldquo :: lit "Real change happens when we stop avoiding discomfort. Imagine climbing a mountain " ++
  mdash :: lit " the only way is up. What tough step are you avoiding?" ++ [rdquo].

Definition warmthMsg : JsString.t :=
  ldquo :: lit "I" ++ rsquo :: lit "m glad you" ++ rsquo ::
  lit "re here. Tell me more about what feels heavy for you right now." ++ [rdquo].

Definition warmthReflection : JsString.t :=
  ldquo :: lit "Real change happens when we feel safe to be vulnerable. Think of planting seeds " ++
  mdash :: lit " growth takes time and care. What seed do you want to nurture this week?" ++ [rdquo].

Definition directnessMsg : JsString.t :=
  ldquo :: lit "What" ++ rsquo :: lit "s holding you back? Be specific." ++ [rdquo].

Definition directnessReflection : JsString.t :=
  ldquo :: lit "Real change happens when excuses stop. Picture riding a bike " ++
  mdash :: lit " either you push the pedal, or you don" ++ rsquo ::
  lit "t move. What" ++ rsquo :: lit "s the first action you" ++ rsquo ::
  lit "ll take today?" ++ [rdquo].

(** The pattern of the regular expression in [msg.replace]: a question mark
    followed by a double quote, anchored at the end; and its replacement.
    Both are written with the straight quote U+0022 in the source. *)
Definition challengePattern : JsString.t := [qmark; dquote].

Definition confrontationalClause : JsString.t :=
  lit " " ++ mdash :: lit " and what will you do about it?".

Definition challengeReplacement : JsString.t :=
  confrontationalClause ++ [dquote].

Record PreviewMessage := { msg : JsString.t; reflection : JsString.t }.

Definition warmthTemplate : PreviewMessage :=
  {| msg := warmthMsg; reflection := warmthReflection |}.
Definition directnessTemplate : PreviewMessage :=
  {| msg := directnessMsg; reflection := directnessReflection |}.
Definition defaultTemplate : PreviewMessage :=
  {| msg := defaultMsg; reflection := defaultReflection |}.

(** The choice between the three pairs: the initial values of [msg] and
    [reflection], overwritten by one of the two branches. *)
Definition selectTemplate (d wv : Z) : PreviewMessage :=
  if (wv >=? 7) && (wv >? d) then warmthTemplate
  else if (d >=? 7) && (d >=? wv) then directnessTemplate
  else defaultTemplate.

(** [if (ch >= 8) { msg = msg.replace(...) }] *)
Definition challengeTweak (ch : Z) (m : JsString.t) : JsString.t :=
  if ch >=? 8 then replaceAtEnd challengePattern challengeReplacement m else m.

Definition withTweak (ch : Z) (t : PreviewMessage) : PreviewMessage :=
  {| msg := challengeTweak ch (msg t); reflection := reflection t |}.

(** The message part of [commitPreviewFromSliders]: [d], [wv], [ch] are the
    live slider values. *)
Definition selectMessage (d wv ch : Z) : PreviewMessage :=
  withTweak ch (selectTemplate d wv).

(** For the statements about the rewrite: the message carries the
    confrontational clause immediately before its last code unit. *)
Definition clauseBeforeClosingQuote (m : JsString.t) : bool :=
  endsWith confrontationalClause (removelast m).

(** The demo sentences of [gen]. *)
Definition warmthDemo : JsString.t :=
  lit "I'm glad you're here. Tell me more about what feels heavy for you right now.".
Definition directnessDemo : JsString.t :=
  lit "What's holding you back? Be specific.".
Definition challengeDemo : JsString.t :=
  lit "Tell me about the feeling behind that choice.".
Definition defaultDemo : JsString.t :=
  lit "Hi, I'm here to help you reflect. What if we explore what's holding you back right now?".

Definition gen (d wv ch : Z) : JsString.t :=
  if (wv >=? 7) && (wv >? d) then warmthDemo
  else if (d >=? 7) && (d >=? wv) then directnessDemo
  else if ch >=? 7 then challengeDemo
  else defaultDemo.

(* ===================================================================== *)
(** ** Preview synthesis: the gradient *)
(* ===================================================================== *)

(** In exact arithmetic. These definitions stand for the code on the
    weights it is called with, the slider values 1 to 10; for weights in
    general (sums that overflow, NaN, the infinities, the rounding of a
    tie) the code is the module [Double] further down. *)

Local Open Scope Q_scope.

Definition Qltb (x y : Q) : bool := negb (Qle_bool y x).

(** [Math.round] of an exact number: the nearest integer, halves rounded up. *)
Definition mathRound (x : Q) : Z := Qfloor (x + (1#2)).

Definition c1 : JsString.t := lit "rgb(214, 107, 250)".
Definition c2 : JsString.t := lit "rgb(255, 210, 122)".
Definition c3 : JsString.t := lit "rgb(105, 237, 199)".

Definition epsilonTotal : Q := 1 # 10000.
Definition minSeg : Q := 8.
Definition overlap : Z := 2.

(** [Math.max(0.0001, d + w + c)] *)
Definition totalWeight (d w c : Q) : Q := Qmax epsilonTotal (d + w + c).

(** The normalized percentages [p1], [p2], [p3]. *)
Definition percentages (d w c : Q) : list Q :=
  let total := totalWeight d w c in
  [ (d / total) * 100; (w / total) * 100; (c / total) * 100 ].

(** The mutable locals of the clamping loop. *)
Record ClampState := {
  adjusted : list Q;
  remaining : Q;
  flexibleTotal : Q
}.

Definition clampInit : ClampState :=
  {| adjusted := [0; 0; 0]; remaining := 100; flexibleTotal := 0 |}.

(** One iteration of the first loop, at index [i]. *)
Definition clampStep (parts : list Q) (st : ClampState) (i : nat) : ClampState :=
  let p := nth i parts 0 in
  if Qltb p minSeg then
    {| adjusted := <[ i := minSeg ]> (adjusted st);
       remaining := remaining st - minSeg;
       flexibleTotal := flexibleTotal st |}
  else
    {| adjusted := adjusted st;
       remaining := remaining st;
       flexibleTotal := flexibleTotal st + p |}.

Definition firstPass (parts : list Q) : ClampState :=
  fold_left (clampStep parts) [0; 1; 2]%nat clampInit.

(** The test of the even-split branch, [flexibleTotal <= 0]. *)
Definition evenSplitTaken (st : ClampState) : bool :=
  Qle_bool (flexibleTotal st) 0.

(** One iteration of the second loop: an entry still at [0] receives its
    proportional share of [remaining]. *)
Definition shareStep (parts : list Q) (st : ClampState) (adj : list Q) (i : nat)
  : list Q :=
  if Qeq_bool (nth i adj 0) 0
  then <[ i := (nth i parts 0 / flexibleTotal st) * remaining st ]> adj
  else adj.

Definition secondPass (parts : list Q) (st : ClampState) : list Q :=
  if evenSplitTaken st then [100 / 3; 100 / 3; 100 / 3]
  else fold_left (shareStep parts st) [0; 1; 2]%nat (adjusted st).

(** The final contents of [adjusted]: the three segment widths. *)
Definition segmentWidths (d w c : Q) : list Q :=
  let parts := percentages d w c in
  secondPass parts (firstPass parts).

(** The run of [computePreviewGradient d w c] takes the even-split branch. *)
Definition usesEvenSplit (d w c : Q) : bool :=
  evenSplitTaken (firstPass (percentages d w c)).


Definition clampedParts (parts : list Q) : list Q :=
  List.filter (fun p => Qltb p minSeg) parts.



(** The values a tone slider can take ([min={1} max={10}]), and the check
    that the three widths of a triple are all at least [minSeg]. *)
Definition sliderValues : list Z := [1; 2; 3; 4; 5; 6; 7; 8; 9; 10]%Z.


Definition pct (z : Z) : JsString.t := ofInt z ++ lit "%".

(** The gradient in exact arithmetic; for every slider triple it is the
    string the code builds. *)
Definition computePreviewGradient (d w c : Q) : JsString.t :=
  let adj := segmentWidths d w c in
  let stop1 := mathRound (nth 0 adj 0) in
  let stop2 := mathRound (nth 0 adj 0 + nth 1 adj 0) in
  let s1a := Z.max 0 (stop1 - overlap) in
  let s1b := Z.min 100 (stop1 + overlap) in
  let s2a := Z.max 0 (stop2 - overlap) in
  let s2b := Z.min 100 (stop2 + overlap) in
  lit "linear-gradient(90deg, " ++ c1 ++ lit " 0%, " ++ c1 ++ lit " " ++ pct s1a
    ++ lit ", " ++ c2 ++ lit " " ++ pct s1b
    ++ lit ", " ++ c2 ++ lit " " ++ pct s2a
    ++ lit ", " ++ c3 ++ lit " " ++ pct s2b
    ++ lit ", " ++ c3 ++ lit " 100%)".

Local Close Scope Q_scope.

(* ===================================================================== *)
(** ** The state of [StepPanel] *)
(* ===================================================================== *)

(** The [useState] cells of the component, grouped by the step whose
    questions they answer (the grouping of the source's comments). *)

Record LanguageState := {
  onboardingLang : option JsString.t;
  twinLang : option JsString.t
}.

Record IdentityState := {
  q1Text : JsString.t;
  q2Selections : list JsString.t;
  q2OtherOpen : bool;
  q2OtherText : JsString.t;
  q3Selection : option JsString.t;
  q3OtherOpen : bool;
  q3OtherText : JsString.t;
  q4Selection : option JsString.t;
  q4OtherOpen : bool;
  q4OtherText : JsString.t;
  q5Selections : list JsString.t;
  q5OtherOpen : bool;
  q5OtherText : JsString.t
}.

Record MethodState := {
  mQ1Selection : option JsString.t;
  mQ1OtherOpen : bool;
  mQ1OtherText : JsString.t;
  mQ2Selection : option JsString.t;
  mQ2OtherOpen : bool;
  mQ2OtherText : JsString.t;
  mQ3Selection : option JsString.t;
  mQ3OtherOpen : bool;
  mQ3OtherText : JsString.t
}.

Record ExampleState := {
  exQ1Selection : option JsString.t;
  exQ1OtherOpen : bool;
  exQ1OtherText : JsString.t;
  exQ2Selection : option JsString.t;
  exQ2OtherOpen : bool;
  exQ2OtherText : JsString.t;
  exQ3Text : JsString.t
}.

Record GuardrailsState := {
  gQ1Selections : list JsString.t;
  gQ1OtherOpen : bool;
  gQ1OtherText : JsString.t;
  gQ2Selection : option JsString.t;
  gQ2OtherOpen : bool;
  gQ2OtherText : JsString.t;
  gQ3Map : gmap (list N) (option (list N))
}.

Inductive Thumb := ThumbUp | ThumbDown.
Inductive FeedbackChoice := Accept | Tweak | Sharpen.

Record PreviewState := {
  previewRating : Z;
  showAdvancedPreviewControls : bool;
  directness : Z;
  warmth : Z;
  challenge : Z;
  commDirectness : Z;
  commWarmth : Z;
  commChallenge : Z;
  previewMessage : option PreviewMessage;
  feedbackThumb : option Thumb;
  feedbackRating : Z;
  selectedFeedbackChoice : option FeedbackChoice;
  demoContent : JsString.t;
  demoVisible : bool;
  bgGradient : JsString.t;
  nextBgGradient : JsString.t;
  bgFading : bool
}.

Record Panel := {
  subIndex : Z;
  showIntro : bool;
  languageAnswers : LanguageState;
  identityAnswers : IdentityState;
  methodAnswers : MethodState;
  exampleAnswers : ExampleState;
  guardrailsAnswers : GuardrailsState;
  previewControls : PreviewState
}.

(** *** Initial values *)

Definition guardQ3Rows : list JsString.t :=
  [ lit "Check ins"; lit "Homework"; lit "Goal reminders";
    lit "Reflection prompts"; lit "Celebrate progress";
    lit "Suggest resources"; lit "Handle emotions"; lit "Scheduling" ].

(** [guardQ3Rows.forEach(r => { initial[r] = null; })] *)
Definition initialGQ3Map : gmap (list N) (option (list N)) :=
  fold_left (fun m r => <[ r := None ]> m) guardQ3Rows ∅.

Definition emptyLanguage : LanguageState :=
  {| onboardingLang := None; twinLang := None |}.

Definition emptyIdentity : IdentityState :=
  {| q1Text := []; q2Selections := []; q2OtherOpen := false; q2OtherText := [];
     q3Selection := None; q3OtherOpen := false; q3OtherText := [];
     q4Selection := None; q4OtherOpen := false; q4OtherText := [];
     q5Selections := []; q5OtherOpen := false; q5OtherText := [] |}.

Definition emptyMethod : MethodState :=
  {| mQ1Selection := None; mQ1OtherOpen := false; mQ1OtherText := [];
     mQ2Selection := None; mQ2OtherOpen := false; mQ2OtherText := [];
     mQ3Selection := None; mQ3OtherOpen := false; mQ3OtherText := [] |}.

Definition emptyExample : ExampleState :=
  {| exQ1Selection := None; exQ1OtherOpen := false; exQ1OtherText := [];
     exQ2Selection := None; exQ2OtherOpen := false; exQ2OtherText := [];
     exQ3Text := [] |}.

Definition emptyGuardrails : GuardrailsState :=
  {| gQ1Selections := []; gQ1OtherOpen := false; gQ1OtherText := [];
     gQ2Selection := None; gQ2OtherOpen := false; gQ2OtherText := [];
     gQ3Map := initialGQ3Map |}.

(** The text [demoContent] starts with (curly apostrophes in the source). *)
Definition initialDemoContent : JsString.t :=
  lit "Hi, I" ++ rsquo :: lit "m here to help you reflect. What if we explore what"
  ++ rsquo :: lit "s holding you back right now?".

Definition initialPreview : PreviewState :=
  {| previewRating := 5; showAdvancedPreviewControls := false;
     directness := 5; warmth := 5; challenge := 5;
     commDirectness := 5; commWarmth := 5; commChallenge := 5;
     previewMessage := None;
     feedbackThumb := None; feedbackRating := 8;
     selectedFeedbackChoice := None;
     demoContent := initialDemoContent; demoVisible := true;
     bgGradient := computePreviewGradient 5 5 5;
     nextBgGradient := []; bgFading := false |}.

Definition initialPanel : Panel :=
  {| subIndex := 0; showIntro := true;
     languageAnswers := emptyLanguage; identityAnswers := emptyIdentity;
     methodAnswers := emptyMethod; exampleAnswers := emptyExample;
     guardrailsAnswers := emptyGuardrails; previewControls := initialPreview |}.

(** *** State setters used by the handlers below *)

Definition setSubIndex (v : Z) (p : Panel) : Panel :=
  {| subIndex := v; showIntro := showIntro p;
     languageAnswers := languageAnswers p; identityAnswers := identityAnswers p;
     methodAnswers := methodAnswers p; exampleAnswers := exampleAnswers p;
     guardrailsAnswers := guardrailsAnswers p;
     previewControls := previewControls p |}.

Definition setShowIntro (v : bool) (p : Panel) : Panel :=
  {| subIndex := subIndex p; showIntro := v;
     languageAnswers := languageAnswers p; identityAnswers := identityAnswers p;
     methodAnswers := methodAnswers p; exampleAnswers := exampleAnswers p;
     guardrailsAnswers := guardrailsAnswers p;
     previewControls := previewControls p |}.

Definition setLanguageAnswers (v : LanguageState) (p : Panel) : Panel :=
  {| subIndex := subIndex p; showIntro := showIntro p;
     languageAnswers := v; identityAnswers := identityAnswers p;
     methodAnswers := methodAnswers p; exampleAnswers := exampleAnswers p;
     guardrailsAnswers := guardrailsAnswers p;
     previewControls := previewControls p |}.

Definition setIdentityAnswers (v : IdentityState) (p : Panel) : Panel :=
  {| subIndex := subIndex p; showIntro := showIntro p;
     languageAnswers := languageAnswers p; identityAnswers := v;
     methodAnswers := methodAnswers p; exampleAnswers := exampleAnswers p;
     guardrailsAnswers := guardrailsAnswers p;
     previewControls := previewControls p |}.

Definition setPreviewControls (v : PreviewState) (p : Panel) : Panel :=
  {| subIndex := subIndex p; showIntro := showIntro p;
     languageAnswers := languageAnswers p; identityAnswers := identityAnswers p;
     methodAnswers := methodAnswers p; exampleAnswers := exampleAnswers p;
     guardrailsAnswers := guardrailsAnswers p;
     previewControls := v |}.

Definition setOnboardingLang (v : option JsString.t) (p : Panel) : Panel :=
  setLanguageAnswers
    {| onboardingLang := v; twinLang := twinLang (languageAnswers p) |} p.

Definition setTwinLang (v : option JsString.t) (p : Panel) : Panel :=
  setLanguageAnswers
    {| onboardingLang := onboardingLang (languageAnswers p); twinLang := v |} p.

(* ===================================================================== *)
(** ** The parent component [Home] *)
(* ===================================================================== *)

Record Step := { id : JsString.t; label : JsString.t }.

Definition steps : list Step :=
  [ {| id := lit "language";   label := lit "Language" |};
    {| id := lit "identity";   label := lit "Identity & Tone" |};
    {| id := lit "method";     label := lit "Method & Beliefs" |};
    {| id := lit "example";    label := lit "Example in Action" |};
    {| id := lit "guardrails"; label := lit "Guardrails" |};
    {| id := lit "preview";    label := lit "Preview" |} ].

Record Home := {
  showStepper : bool;
  currentStep : Z;
  stepProgress : gmap (list N) Q
}.

(** [steps[i]], [undefined] out of range. *)
Definition stepAt (i : Z) : option Step :=
  if i <? 0 then None else steps !! Z.to_nat i.

Definition setCurrentStep (i : Z) (h : Home) : Home :=
  {| showStepper := showStepper h; currentStep := i;
     stepProgress := stepProgress h |}.

(** [setStepProgress((prev) => ({ ...prev, [id]: Math.max(0, Math.min(1, p)) }))]
    for a finite number [p], where the clamp involves no rounding. What
    the clamp does with NaN and the infinities is [Double.clamp01]. *)
Definition handleStepProgress (sid : JsString.t) (p : Q) (h : Home) : Home :=
  {| showStepper := showStepper h; currentStep := currentStep h;
     stepProgress := <[ sid := Qmax 0 (Qmin 1 p) ]> (stepProgress h) |}.

Definition reportProgress (p : Q) (h : Home) : Home :=
  match stepAt (currentStep h) with
  | Some s => handleStepProgress (id s) p h
  | None => h
  end.

(** The [onPrev] and [onNext] props handed to [StepPanel]. *)
Definition onPrev (h : Home) : Home :=
  setCurrentStep (Z.max 0 (currentStep h - 1)) h.

Definition onNext (h : Home) : Home :=
  setCurrentStep (Z.min (Z.of_nat (length steps) - 1) (currentStep h + 1)) h.

(* ===================================================================== *)
(** ** Calls a handler makes on its surroundings *)
(* ===================================================================== *)

(** The callbacks handed to [setTimeout] by [commitPreviewFromSliders]. *)
Inductive TimerAction :=
| ShowDemo (text : JsString.t)
| SwapBackground (newBg : JsString.t).

Inductive Call :=
| Alert (message : JsString.t)
| CallOnNext
| CallOnPrev
| CallOnProgressChange (p : Q)
| SetTimeout (cb : TimerAction) (ms : Z).

(** What a call does to the state of [Home]: [alert] and timers leave it
    alone, the three props are the functions above. *)
Definition runCall (h : Home) (c : Call) : Home :=
  match c with
  | Alert _ => h
  | CallOnNext => onNext h
  | CallOnPrev => onPrev h
  | CallOnProgressChange p => reportProgress p h
  | SetTimeout _ _ => h
  end.

Definition runCalls (cs : list Call) (h : Home) : Home := fold_left runCall cs h.

(* ===================================================================== *)
(** ** The progress effect *)
(* ===================================================================== *)

Local Open Scope Q_scope.

Definition b2q (b : bool) : Q := if b then 1 else 0.

(** [xs.reduce((a,b) => a+b, 0)] *)
Definition sumQ (xs : list Q) : Q := fold_left Qplus xs 0.

Definition isSet (o : option JsString.t) : bool :=
  match o with Some _ => true | None => false end.

Definition nonEmptyList (l : list JsString.t) : bool :=
  (0 <? length l)%nat.

(** [open && text.trim() !== ''] *)
Definition otherGiven (open : bool) (text : JsString.t) : bool :=
  open && negb (trimsToEmpty text).

(** [gQ3Map[r]] used as a condition. *)
Definition rowSet (m : gmap (list N) (option (list N))) (r : JsString.t) : bool :=
  match m !! r with
  | Some o => truthy o
  | None => false
  end.

(** The value handed to [onProgressChange] by the progress effect. *)
Definition progressValue (sid : JsString.t) (stepIndex total : Z) (p : Panel) : Q :=
  if bool_decide (sid = lit "language") then
    let totalQuestions := 2%Z in
    let answered := Z.max 0 (Z.min totalQuestions (subIndex p)) in
    inject_Z answered / inject_Z totalQuestions
  else if bool_decide (sid = lit "identity") then
    let a := identityAnswers p in
    let answered := sumQ
      [ b2q (negb (trimsToEmpty (q1Text a)));
        b2q (nonEmptyList (q2Selections a) || otherGiven (q2OtherOpen a) (q2OtherText a));
        b2q (isSet (q3Selection a) || negb (trimsToEmpty (q3OtherText a)));
        b2q (isSet (q4Selection a) || otherGiven (q4OtherOpen a) (q4OtherText a));
        b2q (nonEmptyList (q5Selections a) || otherGiven (q5OtherOpen a) (q5OtherText a)) ] in
    answered / 5
  else if bool_decide (sid = lit "method") then
    let a := methodAnswers p in
    let answered := sumQ
      [ b2q (isSet (mQ1Selection a) || otherGiven (mQ1OtherOpen a) (mQ1OtherText a));
        b2q (isSet (mQ2Selection a) || otherGiven (mQ2OtherOpen a) (mQ2OtherText a));
        b2q (isSet (mQ3Selection a) || otherGiven (mQ3OtherOpen a) (mQ3OtherText a)) ] in
    answered / 3
  else if bool_decide (sid = lit "example") then
    let a := exampleAnswers p in
    let answered := sumQ
      [ b2q (isSet (exQ1Selection a) || otherGiven (exQ1OtherOpen a) (exQ1OtherText a));
        b2q (isSet (exQ2Selection a) || otherGiven (exQ2OtherOpen a) (exQ2OtherText a));
        b2q (negb (trimsToEmpty (exQ3Text a))) ] in
    answered / 3
  else if bool_decide (sid = lit "guardrails") then
    let a := guardrailsAnswers p in
    let q1Answered :=
      b2q (nonEmptyList (gQ1Selections a) || otherGiven (gQ1OtherOpen a) (gQ1OtherText a)) in
    let q2Answered :=
      b2q (isSet (gQ2Selection a) || otherGiven (gQ2OtherOpen a) (gQ2OtherText a)) in
    let totalRows := Z.of_nat (length guardQ3Rows) in
    let answeredRows :=
      fold_left (fun acc r => acc + b2q (rowSet (gQ3Map a) r)) guardQ3Rows 0 in
    let q3Score := if (totalRows >? 0)%Z then answeredRows / inject_Z totalRows else 0 in
    let answered := q1Answered + q2Answered + q3Score in
    answered / 3
  else if bool_decide (sid = lit "preview") then
    let answered := b2q (previewRating (previewControls p) >? 0)%Z in
    answered
  else
    b2q (stepIndex <? total - 1)%Z.

Local Close Scope Q_scope.

(** The effect itself: [onProgressChange] is always supplied by [Home]. *)
Definition progressEffect (sid : JsString.t) (stepIndex total : Z) (p : Panel)
  : list Call :=
  [ CallOnProgressChange (progressValue sid stepIndex total p) ].

(* ===================================================================== *)
(** ** Navigation inside a step: [goPrev] and [goNext] *)
(* ===================================================================== *)

Definition goPrev (p : Panel) : Panel * list Call :=
  if subIndex p =? 0 then (p, [CallOnPrev])
  else (setSubIndex (Z.max 0 (subIndex p - 1)) p, []).

(** The guard of a question: [Some notice] when the handler returns with
    [alert(notice)], [None] when it falls through to [setSubIndex]. *)
Definition firstFailing (checks : list (bool * JsString.t)) : option JsString.t :=
  snd <$> List.find fst checks.

(** The shape shared by the branches of [goNext]: below [lastSub] the guards
    run and the sub-index advances, at [lastSub] the parent's [onNext] runs. *)
Definition advanceOrLeave (lastSub : Z) (checks : list (bool * JsString.t))
    (p : Panel) : Panel * list Call :=
  if subIndex p <? lastSub then
    match firstFailing checks with
    | Some notice => (p, [Alert notice])
    | None => (setSubIndex (subIndex p + 1) p, [])
    end
  else (p, [CallOnNext]).

Definition languageChecks (p : Panel) : list (bool * JsString.t) :=
  let a := languageAnswers p in
  [ ((subIndex p =? 0) && negb (truthy (onboardingLang a)),
     lit "Please select a language to continue");
    ((subIndex p =? 1) && negb (truthy (twinLang a)),
     lit "Please select a language for your AI Twin") ].

Definition identityChecks (p : Panel) : list (bool * JsString.t) :=
  let a := identityAnswers p in
  [ ((subIndex p =? 0) && trimsToEmpty (q1Text a),
     lit "Please answer Q1 to continue");
    ((subIndex p =? 1) && negb (nonEmptyList (q2Selections a))
       && negb (otherGiven (q2OtherOpen a) (q2OtherText a)),
     lit "Please select at least one tone for Q2");
    ((subIndex p =? 2) && negb (isSet (q3Selection a))
       && trimsToEmpty (q3OtherText a),
     lit "Please select or enter a phrase for Q3");
    ((subIndex p =? 3) && negb (isSet (q4Selection a))
       && negb (otherGiven (q4OtherOpen a) (q4OtherText a)),
     lit "Please select a phrase for Q4") ].

Definition exampleChecks (p : Panel) : list (bool * JsString.t) :=
  let a := exampleAnswers p in
  [ ((subIndex p =? 0) && negb (isSet (exQ1Selection a))
       && negb (otherGiven (exQ1OtherOpen a) (exQ1OtherText a)),
     lit "Please answer Q1 to continue");
    ((subIndex p =? 1) && negb (isSet (exQ2Selection a))
       && negb (otherGiven (exQ2OtherOpen a) (exQ2OtherText a)),
     lit "Please answer Q2 to continue");
    ((subIndex p =? 2) && trimsToEmpty (exQ3Text a),
     lit "Please write a short dialogue for Q3") ].

(** [guardQ3Rows.find(r => !gQ3Map[r])], used as a condition. *)
Definition missingRow (a : GuardrailsState) : bool :=
  truthy (List.find (fun r => negb (rowSet (gQ3Map a) r)) guardQ3Rows).

Definition guardrailsChecks (p : Panel) : list (bool * JsString.t) :=
  let a := guardrailsAnswers p in
  [ ((subIndex p =? 0) && negb (nonEmptyList (gQ1Selections a))
       && negb (otherGiven (gQ1OtherOpen a) (gQ1OtherText a)),
     lit "Please answer Q1 to continue");
    ((subIndex p =? 1) && negb (isSet (gQ2Selection a))
       && negb (otherGiven (gQ2OtherOpen a) (gQ2OtherText a)),
     lit "Please answer Q2 to continue");
    ((subIndex p =? 2) && missingRow a,
     lit "Please set permissions for all items in Q3 (e.g. never / with my review / independently)") ].

Definition previewChecks (p : Panel) : list (bool * JsString.t) :=
  [ ((subIndex p =? 0) && (previewRating (previewControls p) <=? 0),
     lit "Please rate the preview to continue") ].

(** [goNext]: there is no branch for the step id [method], which falls
    through to the final [onNext()] like any unknown id. *)
Definition goNext (sid : JsString.t) (p : Panel) : Panel * list Call :=
  if bool_decide (sid = lit "language") then
    advanceOrLeave 2 (languageChecks p) p
  else if bool_decide (sid = lit "identity") then
    advanceOrLeave 5 (identityChecks p) p
  else if bool_decide (sid = lit "example") then
    advanceOrLeave 3 (exampleChecks p) p
  else if bool_decide (sid = lit "guardrails") then
    advanceOrLeave 3 (guardrailsChecks p) p
  else if bool_decide (sid = lit "preview") then
    advanceOrLeave 2 (previewChecks p) p
  else (p, [CallOnNext]).

(* ===================================================================== *)
(** ** The effects that depend on [step.id] *)
(* ===================================================================== *)

(** The body of the reset effect. It sets every cell listed below and no
    other: [q3OtherOpen], the committed tone values, the preview message,
    the feedback cells and the crossfade cells are not among them. *)
Definition resetIdentity (a : IdentityState) : IdentityState :=
  {| q1Text := []; q2Selections := []; q2OtherOpen := false; q2OtherText := [];
     q3Selection := None; q3OtherOpen := q3OtherOpen a; q3OtherText := [];
     q4Selection := None; q4OtherOpen := false; q4OtherText := [];
     q5Selections := []; q5OtherOpen := false; q5OtherText := [] |}.

Definition resetPreview (v : PreviewState) : PreviewState :=
  {| previewRating := 5; showAdvancedPreviewControls := false;
     directness := 5; warmth := 5; challenge := 5;
     commDirectness := commDirectness v; commWarmth := commWarmth v;
     commChallenge := commChallenge v;
     previewMessage := previewMessage v;
     feedbackThumb := feedbackThumb v; feedbackRating := feedbackRating v;
     selectedFeedbackChoice := selectedFeedbackChoice v;
     demoContent := demoContent v; demoVisible := demoVisible v;
     bgGradient := bgGradient v; nextBgGradient := nextBgGradient v;
     bgFading := bgFading v |}.

Definition resetEffect (p : Panel) : Panel :=
  {| subIndex := 0;
     showIntro := showIntro p;
     languageAnswers := emptyLanguage;
     identityAnswers := resetIdentity (identityAnswers p);
     methodAnswers := emptyMethod;
     exampleAnswers := emptyExample;
     guardrailsAnswers := emptyGuardrails;
     previewControls := resetPreview (previewControls p) |}.

(** [useEffect(() => { setShowIntro(true); }, [step.id])] *)
Definition showIntroEffect (p : Panel) : Panel := setShowIntro true p.

(** The step shown by [Home], with the props derived from it. *)
Definition currentStepId (h : Home) : option JsString.t :=
  id <$> stepAt (currentStep h).

(** What happens after a render in which [step.id] differs from the one of
    the previous render; [h] already holds the new [currentStep] and [p] is
    the state that render closed over.
    - The effects with [step.id] among their dependencies run in the order
      of their declaration: the reset effect, the progress effect (which
      reads the values of the render, not yet reset) and the intro effect.
    - The state they set causes a second render, after which the progress
      effect runs once more, now on the reset state. When the reset changed
      none of its dependencies the second run does not happen; it would
      store the value of the first run again. *)
Definition onStepIdChange (h : Home) (p : Panel) : Home * Panel :=
  match currentStepId h with
  | None => (h, p)
  | Some sid =>
      let total := Z.of_nat (length steps) in
      let p' := showIntroEffect (resetEffect p) in
      let h1 := runCalls (progressEffect sid (currentStep h) total p) h in
      let h2 := runCalls (progressEffect sid (currentStep h) total p') h1 in
      (h2, p')
  end.

(** An event that takes [Home] from [h] to [h'] ([onNext], [onPrev] or the
    stepper's [onJump]): the effects above run when the id of the step
    shown differs. *)
Definition withStepEffects (h h' : Home) (p : Panel) : Home * Panel :=
  if bool_decide (currentStepId h' = currentStepId h) then (h', p)
  else onStepIdChange h' p.

(* ===================================================================== *)
(** ** The preview step: commit, timers and the feedback buttons *)
(* ===================================================================== *)

Definition commitPreviewFromSliders (p : Panel) : Panel * list Call :=
  let v := previewControls p in
  let d := directness v in
  let wv := warmth v in
  let ch := challenge v in
  let newBg := computePreviewGradient (inject_Z d) (inject_Z wv) (inject_Z ch) in
  let v' :=
    {| previewRating := previewRating v;
       showAdvancedPreviewControls := showAdvancedPreviewControls v;
       directness := d; warmth := wv; challenge := ch;
       commDirectness := d; commWarmth := wv; commChallenge := ch;
       previewMessage := Some (selectMessage d wv ch);
       feedbackThumb := feedbackThumb v; feedbackRating := feedbackRating v;
       selectedFeedbackChoice := selectedFeedbackChoice v;
       demoContent := demoContent v; demoVisible := false;
       bgGradient := bgGradient v; nextBgGradient := newBg;
       bgFading := true |} in
  (setPreviewControls v' p,
   [ SetTimeout (ShowDemo (gen d wv ch)) 220;
     SetTimeout (SwapBackground newBg) 360 ]).

(** A timer callback firing. *)
Definition fireTimer (cb : TimerAction) (p : Panel) : Panel :=
  let v := previewControls p in
  match cb with
  | ShowDemo text =>
      setPreviewControls
        {| previewRating := previewRating v;
           showAdvancedPreviewControls := showAdvancedPreviewControls v;
           directness := directness v; warmth := warmth v;
           challenge := challenge v;
           commDirectness := commDirectness v; commWarmth := commWarmth v;
           commChallenge := commChallenge v;
           previewMessage := previewMessage v;
           feedbackThumb := feedbackThumb v; feedbackRating := feedbackRating v;
           selectedFeedbackChoice := selectedFeedbackChoice v;
           demoContent := text; demoVisible := true;
           bgGradient := bgGradient v; nextBgGradient := nextBgGradient v;
           bgFading := bgFading v |} p
  | SwapBackground newBg =>
      setPreviewControls
        {| previewRating := previewRating v;
           showAdvancedPreviewControls := showAdvancedPreviewControls v;
           directness := directness v; warmth := warmth v;
           challenge := challenge v;
           commDirectness := commDirectness v; commWarmth := commWarmth v;
           commChallenge := commChallenge v;
           previewMessage := previewMessage v;
           feedbackThumb := feedbackThumb v; feedbackRating := feedbackRating v;
           selectedFeedbackChoice := selectedFeedbackChoice v;
           demoContent := demoContent v; demoVisible := demoVisible v;
           bgGradient := newBg; nextBgGradient := [];
           bgFading := false |} p
  end.

(** The slider handlers [setDirectness], [setWarmth], [setChallenge]. *)
Definition setSliders (d wv ch : Z) (p : Panel) : Panel :=
  let v := previewControls p in
  setPreviewControls
    {| previewRating := previewRating v;
       showAdvancedPreviewControls := showAdvancedPreviewControls v;
       directness := d; warmth := wv; challenge := ch;
       commDirectness := commDirectness v; commWarmth := commWarmth v;
       commChallenge := commChallenge v;
       previewMessage := previewMessage v;
       feedbackThumb := feedbackThumb v; feedbackRating := feedbackRating v;
       selectedFeedbackChoice := selectedFeedbackChoice v;
       demoContent := demoContent v; demoVisible := demoVisible v;
       bgGradient := bgGradient v; nextBgGradient := nextBgGradient v;
       bgFading := bgFading v |} p.

(** The button "Not quite, tweak it" belongs to the markup of the preview
    step, outside the intro screen, under [subIndex === 1]. *)
Definition tweakButtonRendered (sid : JsString.t) (p : Panel) : bool :=
  bool_decide (sid = lit "preview") && negb (showIntro p) && (subIndex p =? 1).

(** Its [onClick]:
    [setSelectedFeedbackChoice('tweak'); setSubIndex(0);
     setShowAdvancedPreviewControls(true)]. *)
Definition onTweak (p : Panel) : Panel :=
  let v := previewControls p in
  setSubIndex 0
    (setPreviewControls
       {| previewRating := previewRating v;
          showAdvancedPreviewControls := true;
          directness := directness v; warmth := warmth v;
          challenge := challenge v;
          commDirectness := commDirectness v; commWarmth := commWarmth v;
          commChallenge := commChallenge v;
          previewMessage := previewMessage v;
          feedbackThumb := feedbackThumb v; feedbackRating := feedbackRating v;
          selectedFeedbackChoice := Some Tweak;
          demoContent := demoContent v; demoVisible := demoVisible v;
          bgGradient := bgGradient v; nextBgGradient := nextBgGradient v;
          bgFading := bgFading v |} p).

(** Clicking the button: possible only where it is rendered. *)
Definition clickTweak (sid : JsString.t) (p : Panel) : option Panel :=
  if tweakButtonRendered sid p then Some (onTweak p) else None.

(* ===================================================================== *)
(** ** Multi-select answers *)
(* ===================================================================== *)

(** [s.includes(t)] *)
Definition includes (t : JsString.t) (s : list JsString.t) : bool :=
  bool_decide (t ∈ s).

(** [s.filter(x => x !== t)] *)
Definition without (t : JsString.t) (s : list JsString.t) : list JsString.t :=
  List.filter (fun x => negb (bool_decide (x = t))) s.

(** The updater of the tone words (question 2 of the identity step):
    a word already selected is removed, a new word is appended unless two
    are selected. *)
Definition toggleTone (t : JsString.t) (s : list JsString.t) : list JsString.t :=
  if includes t s then without t s
  else if (2 <=? length s)%nat then s
  else s ++ [t].

(** The updater of the uncapped multi-selects ([q5Selections],
    [gQ1Selections]). *)
Definition toggleMember (t : JsString.t) (s : list JsString.t) : list JsString.t :=
  if includes t s then without t s else s ++ [t].

(** [setGQ3Map((m) => ({ ...m, [r]: level }))] *)
Definition setRow (r level : JsString.t)
    (m : gmap (list N) (option (list N))) : gmap (list N) (option (list N)) :=
  <[ r := Some level ]> m.

Definition permissionLevels : list JsString.t :=
  [ lit "never"; lit "review"; lit "independent" ].

(* ===================================================================== *)
(** ** The option lists of the identity step *)
(* ===================================================================== *)

Definition ellipsis : N := 8230%N.   (* U+2026 *)

Definition toneOptions : list JsString.t :=
  [ lit "Direct"; lit "Warm"; lit "Curious"; lit "Challenging"; lit "Calm";
    lit "Energetic" ].

Definition q3Options : list JsString.t :=
  [ lit "What if" ++ [ellipsis]; lit "Tell me more"; lit "How do you know?";
    lit "What" ++ rsquo :: lit "s the cost of not changing?";
    lit "What" ++ rsquo :: lit "s true for you right now?";
    lit "Say more about that" ].

Definition q4Options : list JsString.t :=
  [ lit "You must" ++ [ellipsis]; lit "Everything happens for a reason";
    lit "Just be positive"; lit "It" ++ rsquo :: lit "s not that bad";
    lit "Follow my advice"; lit "Calm down" ].

Definition q5Options : list JsString.t :=
  [ lit "Founders"; lit "Senior managers"; lit "Teams"; lit "High potentials";
    lit "Entrepreneurs"; lit "Corporate leaders" ].

(** *** Setters of the identity answers, one per question *)

Definition setQ1 (text : JsString.t) (a : IdentityState) : IdentityState :=
  {| q1Text := text;
     q2Selections := q2Selections a; q2OtherOpen := q2OtherOpen a;
     q2OtherText := q2OtherText a;
     q3Selection := q3Selection a; q3OtherOpen := q3OtherOpen a;
     q3OtherText := q3OtherText a;
     q4Selection := q4Selection a; q4OtherOpen := q4OtherOpen a;
     q4OtherText := q4OtherText a;
     q5Selections := q5Selections a; q5OtherOpen := q5OtherOpen a;
     q5OtherText := q5OtherText a |}.

Definition setQ2 (sels : list JsString.t) (open : bool) (text : JsString.t)
    (a : IdentityState) : IdentityState :=
  {| q1Text := q1Text a;
     q2Selections := sels; q2OtherOpen := open; q2OtherText := text;
     q3Selection := q3Selection a; q3OtherOpen := q3OtherOpen a;
     q3OtherText := q3OtherText a;
     q4Selection := q4Selection a; q4OtherOpen := q4OtherOpen a;
     q4OtherText := q4OtherText a;
     q5Selections := q5Selections a; q5OtherOpen := q5OtherOpen a;
     q5OtherText := q5OtherText a |}.

Definition setQ3 (sel : option JsString.t) (open : bool) (text : JsString.t)
    (a : IdentityState) : IdentityState :=
  {| q1Text := q1Text a;
     q2Selections := q2Selections a; q2OtherOpen := q2OtherOpen a;
     q2OtherText := q2OtherText a;
     q3Selection := sel; q3OtherOpen := open; q3OtherText := text;
     q4Selection := q4Selection a; q4OtherOpen := q4OtherOpen a;
     q4OtherText := q4OtherText a;
     q5Selections := q5Selections a; q5OtherOpen := q5OtherOpen a;
     q5OtherText := q5OtherText a |}.

Definition setQ4 (sel : option JsString.t) (open : bool) (text : JsString.t)
    (a : IdentityState) : IdentityState :=
  {| q1Text := q1Text a;
     q2Selections := q2Selections a; q2OtherOpen := q2OtherOpen a;
     q2OtherText := q2OtherText a;
     q3Selection := q3Selection a; q3OtherOpen := q3OtherOpen a;
     q3OtherText := q3OtherText a;
     q4Selection := sel; q4OtherOpen := open; q4OtherText := text;
     q5Selections := q5Selections a; q5OtherOpen := q5OtherOpen a;
     q5OtherText := q5OtherText a |}.

Definition setQ5 (sels : list JsString.t) (open : bool) (text : JsString.t)
    (a : IdentityState) : IdentityState :=
  {| q1Text := q1Text a;
     q2Selections := q2Selections a; q2OtherOpen := q2OtherOpen a;
     q2OtherText := q2OtherText a;
     q3Selection := q3Selection a; q3OtherOpen := q3OtherOpen a;
     q3OtherText := q3OtherText a;
     q4Selection := q4Selection a; q4OtherOpen := q4OtherOpen a;
     q4OtherText := q4OtherText a;
     q5Selections := sels; q5OtherOpen := open; q5OtherText := text |}.

(* ===================================================================== *)
(** ** The "Next" buttons below the questions *)
(* ===================================================================== *)

(** The handlers written inline in the markup of the identity, method,
    example and guardrails steps: the shape of [goNext], with
    [Math.min(lastSub, s + 1)] as the updater. *)
Definition advanceCappedOrLeave (lastSub : Z) (checks : list (bool * JsString.t))
    (p : Panel) : Panel * list Call :=
  if subIndex p <? lastSub then
    match firstFailing checks with
    | Some notice => (p, [Alert notice])
    | None => (setSubIndex (Z.min lastSub (subIndex p + 1)) p, [])
    end
  else (p, [CallOnNext]).

Definition methodChecks (p : Panel) : list (bool * JsString.t) :=
  let a := methodAnswers p in
  [ ((subIndex p =? 0) && negb (isSet (mQ1Selection a))
       && negb (otherGiven (mQ1OtherOpen a) (mQ1OtherText a)),
     lit "Please select or enter an approach for Q1");
    ((subIndex p =? 1) && negb (isSet (mQ2Selection a))
       && negb (otherGiven (mQ2OtherOpen a) (mQ2OtherText a)),
     lit "Please select or enter a belief for Q2");
    ((subIndex p =? 2) && negb (isSet (mQ3Selection a))
       && negb (otherGiven (mQ3OtherOpen a) (mQ3OtherText a)),
     lit "Please select or enter a metaphor for Q3") ].

Definition identityNext (p : Panel) : Panel * list Call :=
  advanceCappedOrLeave 5 (identityChecks p) p.

Definition methodNext (p : Panel) : Panel * list Call :=
  advanceCappedOrLeave 3 (methodChecks p) p.

Definition exampleNext (p : Panel) : Panel * list Call :=
  advanceCappedOrLeave 3 (exampleChecks p) p.

Definition guardrailsNext (p : Panel) : Panel * list Call :=
  advanceCappedOrLeave 3 (guardrailsChecks p) p.

(** The language step: the button is disabled while the question shown
    has no answer, and its handler returns without a notice. *)
Definition languageNextDisabled (p : Panel) : bool :=
  let a := languageAnswers p in
  (subIndex p =? 0) && negb (truthy (onboardingLang a))
  || (subIndex p =? 1) && negb (truthy (twinLang a)).

Definition languageNext (p : Panel) : Panel * list Call :=
  let a := languageAnswers p in
  if (subIndex p =? 0) && negb (truthy (onboardingLang a)) then (p, [])
  else if (subIndex p =? 1) && negb (truthy (twinLang a)) then (p, [])
  else (setSubIndex (Z.min 2 (subIndex p + 1)) p, []).

(** The preview step: [lastSub] is 1 here, and the rating is checked
    whatever the sub-index below it. *)
Definition previewNext (p : Panel) : Panel * list Call :=
  let lastSub := 1 in
  if subIndex p <? lastSub then
    if previewRating (previewControls p) <=? 0
    then (p, [Alert (lit "Please rate the preview to continue")])
    else (setSubIndex (Z.min lastSub (subIndex p + 1)) p, [])
  else (p, [CallOnNext]).

(** The "Previous" buttons: [setSubIndex((s) => Math.max(0, s - 1))]. *)
Definition previousButton (p : Panel) : Panel :=
  setSubIndex (Z.max 0 (subIndex p - 1)) p.

(* ===================================================================== *)
(** ** The screens of the language and identity steps *)
(* ===================================================================== *)

(** A click or an input on a control; [None] when the control is not in
    the markup rendered for the state, is hidden, or is disabled. *)

Inductive Lang := English | Dutch.

Definition langName (l : Lang) : JsString.t :=
  match l with English => lit "English" | Dutch => lit "Dutch" end.

Inductive LanguageControl :=
| LStart
| LChooseOnboarding (l : Lang)
| LChooseTwin (l : Lang)
| LPrevious
| LNext
| LRevisit
| LProceed.

Definition languageScreen (c : LanguageControl) (p : Panel)
  : option (Panel * list Call) :=
  if showIntro p then
    match c with
    | LStart => Some (setShowIntro false p, [])
    | _ => None
    end
  else
    match c with
    | LStart => None
    | LChooseOnboarding l =>
        if subIndex p =? 0
        then Some (setOnboardingLang (Some (langName l)) p, []) else None
    | LChooseTwin l =>
        if subIndex p =? 1
        then Some (setTwinLang (Some (langName l)) p, []) else None
    | LPrevious =>
        if subIndex p =? 1 then Some (previousButton p, []) else None
    | LNext =>
        if ((subIndex p =? 0) || (subIndex p =? 1))
           && negb (languageNextDisabled p)
        then Some (languageNext p) else None
    | LRevisit =>
        if subIndex p =? 2 then Some (setShowIntro true p, []) else None
    | LProceed =>
        if subIndex p =? 2 then Some (goNext (lit "language") p) else None
    end.

Inductive IdentityControl :=
| IStart
| ITypeQ1 (text : JsString.t)
| IToggleTone (t : JsString.t)
| ISetQ2OtherOpen (b : bool)
| ITypeQ2Other (text : JsString.t)
| IChooseQ3 (o : JsString.t)
| ISetQ3OtherOpen (b : bool)
| ITypeQ3Other (text : JsString.t)
| IChooseQ4 (o : JsString.t)
| ISetQ4OtherOpen (b : bool)
| ITypeQ4Other (text : JsString.t)
| IToggleClient (o : JsString.t)
| ISetQ5OtherOpen (b : bool)
| ITypeQ5Other (text : JsString.t)
| IPrevious
| INext
| IRevisit
| IProceed.

(** An update of the identity answers, offered under the sub-index [k]. *)
Definition identityInput (k : Z) (shown : bool) (a' : IdentityState) (p : Panel)
  : option (Panel * list Call) :=
  if (subIndex p =? k) && shown then Some (setIdentityAnswers a' p, [])
  else None.

Definition identityScreen (c : IdentityControl) (p : Panel)
  : option (Panel * list Call) :=
  let a := identityAnswers p in
  if showIntro p then
    match c with
    | IStart => Some (setShowIntro false p, [])
    | _ => None
    end
  else
    match c with
    | IStart => None
    | ITypeQ1 text => identityInput 0 true (setQ1 text a) p
    | IToggleTone t =>
        identityInput 1 (includes t toneOptions)
          (setQ2 (toggleTone t (q2Selections a)) (q2OtherOpen a) (q2OtherText a) a) p
    | ISetQ2OtherOpen b =>
        identityInput 1 true (setQ2 (q2Selections a) b (q2OtherText a) a) p
    | ITypeQ2Other text =>
        identityInput 1 (q2OtherOpen a)
          (setQ2 (q2Selections a) (q2OtherOpen a) text a) p
    | IChooseQ3 o =>
        identityInput 2 (includes o q3Options)
          (setQ3 (Some o) (q3OtherOpen a) (q3OtherText a) a) p
    | ISetQ3OtherOpen b =>
        identityInput 2 true (setQ3 (q3Selection a) b (q3OtherText a) a) p
    | ITypeQ3Other text =>
        identityInput 2 (q3OtherOpen a)
          (setQ3 (q3Selection a) (q3OtherOpen a) text a) p
    | IChooseQ4 o =>
        identityInput 3 (includes o q4Options)
          (setQ4 (Some o) (q4OtherOpen a) (q4OtherText a) a) p
    | ISetQ4OtherOpen b =>
        identityInput 3 true (setQ4 (q4Selection a) b (q4OtherText a) a) p
    | ITypeQ4Other text =>
        identityInput 3 (q4OtherOpen a)
          (setQ4 (q4Selection a) (q4OtherOpen a) text a) p
    | IToggleClient o =>
        identityInput 4 (includes o q5Options)
          (setQ5 (toggleMember o (q5Selections a)) (q5OtherOpen a) (q5OtherText a) a) p
    | ISetQ5OtherOpen b =>
        identityInput 4 true (setQ5 (q5Selections a) b (q5OtherText a) a) p
    | ITypeQ5Other text =>
        identityInput 4 (q5OtherOpen a)
          (setQ5 (q5Selections a) (q5OtherOpen a) text a) p
    | IPrevious =>
        if subIndex p =? 0 then None else Some (previousButton p, [])
    | INext => Some (identityNext p)
    | IRevisit =>
        if subIndex p =? 5 then Some (setSubIndex 0 (setShowIntro true p), [])
        else None
    | IProceed =>
        if subIndex p =? 5 then Some (goNext (lit "identity") p) else None
    end.

(** A sequence of clicks; a click on a control that is not there leaves
    the state as it is. The calls made along the way are collected. *)
Definition runScreen {C : Type} (screen : C -> Panel -> option (Panel * list Call))
    (cs : list C) (p : Panel) : Panel * list Call :=
  fold_left
    (fun st c =>
       match screen c (fst st) with
       | Some r => (fst r, snd st ++ snd r)
       | None => st
       end)
    cs (p, []).

(* ===================================================================== *)
(** ** The screen of the preview step *)
(* ===================================================================== *)

Inductive PreviewControl :=
| PStart
| PSetRating (v : Z)
| PReleaseRating
| PSetDirectness (v : Z)
| PSetWarmth (v : Z)
| PSetChallenge (v : Z)
| PReleaseTone
| PPrevious
| PNext
| PAccept
| PTweak
| PSharpen
| PThumb (t : Thumb)
| PFinish.

Definition setPreviewRating (r : Z) (p : Panel) : Panel :=
  let v := previewControls p in
  setPreviewControls
    {| previewRating := r;
       showAdvancedPreviewControls := showAdvancedPreviewControls v;
       directness := directness v; warmth := warmth v;
       challenge := challenge v;
       commDirectness := commDirectness v; commWarmth := commWarmth v;
       commChallenge := commChallenge v;
       previewMessage := previewMessage v;
       feedbackThumb := feedbackThumb v; feedbackRating := feedbackRating v;
       selectedFeedbackChoice := selectedFeedbackChoice v;
       demoContent := demoContent v; demoVisible := demoVisible v;
       bgGradient := bgGradient v; nextBgGradient := nextBgGradient v;
       bgFading := bgFading v |} p.

Definition setShowAdvanced (b : bool) (p : Panel) : Panel :=
  let v := previewControls p in
  setPreviewControls
    {| previewRating := previewRating v;
       showAdvancedPreviewControls := b;
       directness := directness v; warmth := warmth v;
       challenge := challenge v;
       commDirectness := commDirectness v; commWarmth := commWarmth v;
       commChallenge := commChallenge v;
       previewMessage := previewMessage v;
       feedbackThumb := feedbackThumb v; feedbackRating := feedbackRating v;
       selectedFeedbackChoice := selectedFeedbackChoice v;
       demoContent := demoContent v; demoVisible := demoVisible v;
       bgGradient := bgGradient v; nextBgGradient := nextBgGradient v;
       bgFading := bgFading v |} p.

(** ["Yes, this sounds like me"]:
    [setSelectedFeedbackChoice('accept'); setSubIndex(2)]. *)
Definition onAccept (p : Panel) : Panel :=
  let v := previewControls p in
  setSubIndex 2
    (setPreviewControls
       {| previewRating := previewRating v;
          showAdvancedPreviewControls := showAdvancedPreviewControls v;
          directness := directness v; warmth := warmth v;
          challenge := challenge v;
          commDirectness := commDirectness v; commWarmth := commWarmth v;
          commChallenge := commChallenge v;
          previewMessage := previewMessage v;
          feedbackThumb := feedbackThumb v; feedbackRating := feedbackRating v;
          selectedFeedbackChoice := Some Accept;
          demoContent := demoContent v; demoVisible := demoVisible v;
          bgGradient := bgGradient v; nextBgGradient := nextBgGradient v;
          bgFading := bgFading v |} p).

(** ["Sharpen behavior"]: [setSelectedFeedbackChoice('sharpen')] and a
    notice. *)
Definition onSharpen (p : Panel) : Panel * list Call :=
  let v := previewControls p in
  (setPreviewControls
     {| previewRating := previewRating v;
        showAdvancedPreviewControls := showAdvancedPreviewControls v;
        directness := directness v; warmth := warmth v;
        challenge := challenge v;
        commDirectness := commDirectness v; commWarmth := commWarmth v;
        commChallenge := commChallenge v;
        previewMessage := previewMessage v;
        feedbackThumb := feedbackThumb v; feedbackRating := feedbackRating v;
        selectedFeedbackChoice := Some Sharpen;
        demoContent := demoContent v; demoVisible := demoVisible v;
        bgGradient := bgGradient v; nextBgGradient := nextBgGradient v;
        bgFading := bgFading v |} p,
   [Alert (lit "Sharpen behaviour: coming soon")]).

(** The thumbs: [setFeedbackThumb(feedbackThumb === t ? null : t)]. *)
Definition onThumb (t : Thumb) (p : Panel) : Panel :=
  let v := previewControls p in
  setPreviewControls
    {| previewRating := previewRating v;
       showAdvancedPreviewControls := showAdvancedPreviewControls v;
       directness := directness v; warmth := warmth v;
       challenge := challenge v;
       commDirectness := commDirectness v; commWarmth := commWarmth v;
       commChallenge := commChallenge v;
       previewMessage := previewMessage v;
       feedbackThumb :=
         match feedbackThumb v, t with
         | Some ThumbUp, ThumbUp | Some ThumbDown, ThumbDown => None
         | _, _ => Some t
         end;
       feedbackRating := feedbackRating v;
       selectedFeedbackChoice := selectedFeedbackChoice v;
       demoContent := demoContent v; demoVisible := demoVisible v;
       bgGradient := bgGradient v; nextBgGradient := nextBgGradient v;
       bgFading := bgFading v |} p.

(** A range input with [min={1} max={10}] reports an integer between the
    two. *)
Definition inSliderRange (v : Z) : bool := (1 <=? v) && (v <=? 10).

Definition previewScreen (c : PreviewControl) (p : Panel)
  : option (Panel * list Call) :=
  let v := previewControls p in
  if showIntro p then
    match c with
    | PStart => Some (setShowIntro false p, [])
    | _ => None
    end
  else
    let onCard := subIndex p <? 1 in
    let advanced := onCard && showAdvancedPreviewControls v in
    match c with
    | PStart => None
    | PSetRating r =>
        if onCard && inSliderRange r then Some (setPreviewRating r p, [])
        else None
    | PReleaseRating =>
        if onCard then Some (setShowAdvanced true p, []) else None
    | PSetDirectness d =>
        if advanced && inSliderRange d
        then Some (setSliders d (warmth v) (challenge v) p, []) else None
    | PSetWarmth w =>
        if advanced && inSliderRange w
        then Some (setSliders (directness v) w (challenge v) p, []) else None
    | PSetChallenge ch =>
        if advanced && inSliderRange ch
        then Some (setSliders (directness v) (warmth v) ch p, []) else None
    | PReleaseTone =>
        if advanced then Some (commitPreviewFromSliders p) else None
    | PPrevious => None
    | PNext => if subIndex p =? 0 then Some (previewNext p) else None
    | PAccept => if subIndex p =? 1 then Some (onAccept p, []) else None
    | PTweak => clickTweak (lit "preview") p ≫= fun p' => Some (p', [])
    | PSharpen => if subIndex p =? 1 then Some (onSharpen p) else None
    | PThumb t => if subIndex p =? 1 then Some (onThumb t p, []) else None
    | PFinish => if subIndex p =? 2 then Some (p, [CallOnNext]) else None
    end.

(* ===================================================================== *)
(** ** The stepper *)
(* ===================================================================== *)

(** [(stepProgress && (stepProgress[s.id] || 0) >= 1) || i < current]:
    a missing entry and an entry of 0 both count as 0. *)
Definition stepCompleted (h : Home) (i : Z) (s : Step) : bool :=
  Qle_bool 1 (default 0%Q (stepProgress h !! id s)) || (i <? currentStep h).

(** A step of the strip can be clicked when it is completed ([onJump] is
    always supplied by [Home]); the click is [setCurrentStep(i)]. *)
Definition stepClickable (h : Home) (i : Z) : bool :=
  match stepAt i with
  | Some s => stepCompleted h i s
  | None => false
  end.

(** [handleStart]: [setShowStepper(true); setCurrentStep(0)]. *)
Definition handleStart (h : Home) : Home :=
  {| showStepper := true; currentStep := 0; stepProgress := stepProgress h |}.

Definition initialHome : Home :=
  {| showStepper := false; currentStep := 0; stepProgress := ∅ |}.

(** The identity step with its five questions answered, on the feedback
    screen. *)
Definition identityAnswered : Panel :=
  setSubIndex 5
    (setIdentityAnswers
       {| q1Text := lit "You are very clear";
          q2Selections := [lit "Direct"; lit "Calm"];
          q2OtherOpen := false; q2OtherText := [];
          q3Selection := Some (lit "Tell me more");
          q3OtherOpen := false; q3OtherText := [];
          q4Selection := Some (lit "Calm down");
          q4OtherOpen := false; q4OtherText := [];
          q5Selections := [lit "Teams"];
          q5OtherOpen := false; q5OtherText := [] |}
       (setShowIntro false initialPanel)).

(** Every recorded progress lies between 0 and 1. *)
Definition progressBounded (h : Home) : Prop :=
  forall sid v, stepProgress h !! sid = Some v -> (0 <= v <= 1)%Q.

(* ===================================================================== *)
(** ** What the screens maintain *)
(* ===================================================================== *)

(** The state a step is entered with. *)
Definition enterStep (p : Panel) : Panel := showIntroEffect (resetEffect p).

(** Language step: the sub-index is one of 0, 1, 2; beyond question 0 the
    onboarding language is chosen, on the review screen both are. *)
Definition languageInvariant (p : Panel) : Prop :=
  0 <= subIndex p <= 2 /\
  (1 <= subIndex p -> truthy (onboardingLang (languageAnswers p)) = true) /\
  (2 <= subIndex p -> truthy (twinLang (languageAnswers p)) = true).

(** The condition under which the progress effect counts a question of the
    identity step as answered. *)
Definition q1Answered (a : IdentityState) : bool :=
  negb (trimsToEmpty (q1Text a)).
Definition q2Answered (a : IdentityState) : bool :=
  nonEmptyList (q2Selections a) || otherGiven (q2OtherOpen a) (q2OtherText a).
Definition q3Answered (a : IdentityState) : bool :=
  isSet (q3Selection a) || negb (trimsToEmpty (q3OtherText a)).
Definition q4Answered (a : IdentityState) : bool :=
  isSet (q4Selection a) || otherGiven (q4OtherOpen a) (q4OtherText a).

(** Identity step: the sub-index is among 0..5; every question before the
    one shown is answered (the fifth has no guard); the tone words are at
    most two, distinct, and taken from the options. *)
Definition identityInvariant (p : Panel) : Prop :=
  let a := identityAnswers p in
  0 <= subIndex p <= 5 /\
  (1 <= subIndex p -> q1Answered a = true) /\
  (2 <= subIndex p -> q2Answered a = true) /\
  (3 <= subIndex p -> q3Answered a = true) /\
  (4 <= subIndex p -> q4Answered a = true) /\
  (length (q2Selections a) <= 2)%nat /\
  NoDup (q2Selections a) /\
  (forall t, t ∈ q2Selections a -> t ∈ toneOptions).

(** The calls a screen may make: notices and the parent's [onNext]. *)
Definition alertOrNext (c : Call) : Prop :=
  c = CallOnNext \/ exists notice, c = Alert notice.

(** Preview step: what holds of the preview cells in every state a session
    can reach. The committed values and the message outlive a change of
    step, so this is stated for the whole panel. *)
Definition previewInvariant (p : Panel) : Prop :=
  let v := previewControls p in
  1 <= previewRating v <= 10 /\
  (1 <= directness v <= 10 /\ 1 <= warmth v <= 10 /\ 1 <= challenge v <= 10) /\
  (1 <= commDirectness v <= 10 /\ 1 <= commWarmth v <= 10 /\
   1 <= commChallenge v <= 10) /\
  (previewMessage v = None \/
   previewMessage v
   = Some (selectMessage (commDirectness v) (commWarmth v) (commChallenge v))).

(** The four stop positions [s1a], [s1b], [s2a], [s2b] of
    [computePreviewGradient], and the template literal that prints them. *)
Definition gradientStops (d w c : Q) : Z * Z * Z * Z :=
  let adj := segmentWidths d w c in
  let stop1 := mathRound (nth 0 adj 0%Q) in
  let stop2 := mathRound (nth 0 adj 0%Q + nth 1 adj 0%Q)%Q in
  (Z.max 0 (stop1 - overlap), Z.min 100 (stop1 + overlap),
   Z.max 0 (stop2 - overlap), Z.min 100 (stop2 + overlap)).

Definition renderGradient (stops : Z * Z * Z * Z) : JsString.t :=
  let '(s1a, s1b, s2a, s2b) := stops in
  lit "linear-gradient(90deg, " ++ c1 ++ lit " 0%, " ++ c1 ++ lit " " ++ pct s1a
    ++ lit ", " ++ c2 ++ lit " " ++ pct s1b
    ++ lit ", " ++ c2 ++ lit " " ++ pct s2a
    ++ lit ", " ++ c3 ++ lit " " ++ pct s2b
    ++ lit ", " ++ c3 ++ lit " 100%)".

(* ===================================================================== *)
(** ** Regular expressions without anchors *)
(* ===================================================================== *)

(** The fragment the page uses: character classes, concatenation and
    [+]; [Empty], [Eps], [Alt] and [Star] are there for the derivatives.
    Matching is on code units (no [u] flag). *)
Inductive Regex :=
| REmpty
| REps
| RClass (f : N -> bool)
| RSeq (r1 r2 : Regex)
| RAlt (r1 r2 : Regex)
| RStar (r : Regex).

Definition RPlus (r : Regex) : Regex := RSeq r (RStar r).

Fixpoint nullable (r : Regex) : bool :=
  match r with
  | REmpty => false
  | REps => true
  | RClass _ => false
  | RSeq r1 r2 => nullable r1 && nullable r2
  | RAlt r1 r2 => nullable r1 || nullable r2
  | RStar _ => true
  end.

Fixpoint deriv (c : N) (r : Regex) : Regex :=
  match r with
  | REmpty => REmpty
  | REps => REmpty
  | RClass f => if f c then REps else REmpty
  | RSeq r1 r2 =>
      if nullable r1 then RAlt (RSeq (deriv c r1) r2) (deriv c r2)
      else RSeq (deriv c r1) r2
  | RAlt r1 r2 => RAlt (deriv c r1) (deriv c r2)
  | RStar r1 => RSeq (deriv c r1) (RStar r1)
  end.

(** The whole string matches. *)
Definition matchesAll (r : Regex) (s : JsString.t) : bool :=
  nullable (fold_left (fun r' c => deriv c r') s r).

Definition anyUnit : Regex := RClass (fun _ => true).

(** [re.test(s)]: some substring of [s] matches. *)
Definition regexTest (r : Regex) (s : JsString.t) : bool :=
  matchesAll (RSeq (RStar anyUnit) (RSeq r (RStar anyUnit))) s.

(** The strings a regular expression denotes. *)
Inductive denotes : Regex -> JsString.t -> Prop :=
| DenEps : denotes REps []
| DenClass (f : N -> bool) (c : N) : f c = true -> denotes (RClass f) [c]
| DenSeq (r1 r2 : Regex) (s1 s2 : JsString.t) :
    denotes r1 s1 -> denotes r2 s2 -> denotes (RSeq r1 r2) (s1 ++ s2)
| DenAltL (r1 r2 : Regex) (s : JsString.t) : denotes r1 s -> denotes (RAlt r1 r2) s
| DenAltR (r1 r2 : Regex) (s : JsString.t) : denotes r2 s -> denotes (RAlt r1 r2) s
| DenStarNil (r : Regex) : denotes (RStar r) []
| DenStarApp (r : Regex) (s1 s2 : JsString.t) :
    denotes r s1 -> denotes (RStar r) s2 -> denotes (RStar r) (s1 ++ s2).

(* ===================================================================== *)
(** ** The account form *)
(* ===================================================================== *)

(** [\S]: a code unit that is not white space. *)
Definition notSpace (c : N) : bool := negb (isWhiteSpace c).

Definition atSign : N := 64%N.
Definition fullStop : N := 46%N.

(** The pattern of [validateEmail]: [\S+@\S+\.\S+]. *)
Definition emailPattern : Regex :=
  RSeq (RPlus (RClass notSpace))
    (RSeq (RClass (N.eqb atSign))
       (RSeq (RPlus (RClass notSpace))
          (RSeq (RClass (N.eqb fullStop)) (RPlus (RClass notSpace))))).

Definition validateEmail (email : JsString.t) : bool :=
  regexTest emailPattern email.

(** A run of one or more code units, none of them white space. *)
Definition solidRun (s : JsString.t) : Prop :=
  s <> [] /\ Forall (fun c => isWhiteSpace c = false) s.

Record FormState := {
  firstName : JsString.t;
  lastName : JsString.t;
  email : JsString.t;
  country : JsString.t;
  linkedIn : JsString.t;
  usePassword : bool;
  password : JsString.t;
  loadingGeo : bool;
  showModal : bool
}.

(** The object logged on submit; [formPassword] is [undefined] when the
    password toggle is off. *)
Record Payload := {
  formFirstName : JsString.t;
  formLastName : JsString.t;
  formEmail : JsString.t;
  formCountry : JsString.t;
  formLinkedIn : JsString.t;
  formPassword : option JsString.t
}.

Inductive FormCall :=
| FormAlert (message : JsString.t)
| ConsoleLog (payload : Payload).

Definition isEmptyString (s : JsString.t) : bool :=
  match s with [] => true | _ :: _ => false end.

Definition payloadOf (f : FormState) : Payload :=
  {| formFirstName := firstName f; formLastName := lastName f;
     formEmail := email f; formCountry := country f;
     formLinkedIn := linkedIn f;
     formPassword := if usePassword f then Some (password f) else None |}.

Definition setShowModal (b : bool) (f : FormState) : FormState :=
  {| firstName := firstName f; lastName := lastName f; email := email f;
     country := country f; linkedIn := linkedIn f;
     usePassword := usePassword f; password := password f;
     loadingGeo := loadingGeo f; showModal := b |}.

Definition handleSubmit (f : FormState) : FormState * list FormCall :=
  if isEmptyString (firstName f) || isEmptyString (lastName f)
     || isEmptyString (email f) || negb (validateEmail (email f))
  then (f, [FormAlert (lit "Please complete the required fields with valid information.")])
  else (setShowModal true f, [ConsoleLog (payloadOf f)]).

Definition sampleForm : FormState :=
  {| firstName := lit "Jane"; lastName := lit "Doe";
     email := lit "jane@company.com"; country := []; linkedIn := [];
     usePassword := false; password := lit "secret";
     loadingGeo := false; showModal := false |}.

(* ===================================================================== *)
(** ** The server route [pages/api/geo.ts] *)
(* ===================================================================== *)

(** A parsed JSON value; an object holds one entry per key. Numbers are
    rationals (see the conventions at the top). *)
#[warnings="-register-all"] Inductive Json :=
| JNull
| JBool (b : bool)
| JNum (q : Q)
| JStr (s : JsString.t)
| JArr (items : list Json)
| JObj (fields : list (JsString.t * Json)).

(** A value used as a condition. *)
Definition jsonTruthy (j : Json) : bool :=
  match j with
  | JNull => false
  | JBool b => b
  | JNum q => negb (Qeq_bool q 0)
  | JStr s => negb (isEmptyString s)
  | JArr _ => true
  | JObj _ => true
  end.

(** [data.key]: [None] stands for [undefined]. The keys read below are
    own properties of objects only. *)
Definition jsonProp (key : JsString.t) (j : Json) : option Json :=
  match j with
  | JObj fields =>
      snd <$> List.find (fun kv => bool_decide (fst kv = key)) fields
  | _ => None
  end.

(** [a || b] with a possibly undefined [a]. *)
Definition orElse (a : option Json) (b : Json) : Json :=
  match a with
  | Some j => if jsonTruthy j then j else b
  | None => b
  end.

(** [data.country_name || data.country || data.countryName ||
     data.countryFull || ''] *)
Definition countryNameOf (data : Json) : Json :=
  orElse (jsonProp (lit "country_name") data)
    (orElse (jsonProp (lit "country") data)
       (orElse (jsonProp (lit "countryName") data)
          (orElse (jsonProp (lit "countryFull") data) (JStr [])))).

Definition SERVICES : list JsString.t :=
  [ lit "https://ipapi.co/json/";
    lit "https://ipwhois.app/json/";
    lit "https://extreme-ip-lookup.com/json/" ].

Record GeoResult := {
  source : JsString.t;
  country_name : Json;
  raw : Json
}.

(** The module variable [_lastGeo]. *)
Record GeoCache := { ts : Z; result : GeoResult }.

(** What the route answers: the status, whether the body carries
    [cached: true], and the rest of the body. *)
Record GeoResponse := {
  status : Z;
  cached : bool;
  body : GeoResult
}.

Definition geoFallback : GeoResult :=
  {| source := lit "none"; country_name := JStr []; raw := JNull |}.

(** The loop over the services. [fetch s] is what [fetchWithTimeout(s,
    4000)] resolves to; [None] when it throws (network error, time-out,
    HTTP error status, unparsable body). *)
Fixpoint tryServices (fetch : JsString.t -> option Json)
    (services : list JsString.t) : option GeoResult :=
  match services with
  | [] => None
  | s :: rest =>
      match fetch s with
      | Some data =>
          if jsonTruthy data then
            Some {| source := s; country_name := countryNameOf data; raw := data |}
          else tryServices fetch rest
      | None => tryServices fetch rest
      end
  end.

(** [handler], with [now] for [Date.now()]: the response and the new value
    of [_lastGeo], for a call during which no other call begins or ends.
    The cache is read before the services are awaited and written after,
    so calls can overlap; the two parts of a call are [geoBegin] and
    [geoEnd] below. *)
Definition geoHandler (fetch : JsString.t -> option Json) (now : Z)
    (lastGeo : option GeoCache) : GeoResponse * option GeoCache :=
  let miss :=
    let r := match tryServices fetch SERVICES with
             | Some r => r
             | None => geoFallback
             end in
    ({| status := 200; cached := false; body := r |},
     Some {| ts := now; result := r |}) in
  match lastGeo with
  | Some c =>
      if now - ts c <? 5 * 60 * 1000
      then ({| status := 200; cached := true; body := result c |}, lastGeo)
      else miss
  | None => miss
  end.




(** The cache does not answer at time [now]. *)
Definition geoStale (now : Z) (lastGeo : option GeoCache) : Prop :=
  match lastGeo with
  | Some c => 5 * 60 * 1000 <= now - ts c
  | None => True
  end.

(** A service that does not deliver: it throws or yields a falsy body. *)
Definition serviceFails (fetch : JsString.t -> option Json) (s : JsString.t)
  : Prop :=
  match fetch s with
  | Some data => jsonTruthy data = false
  | None => True
  end.

(** An answering service for the examples. *)
Definition sampleFetch (s : JsString.t) : option Json :=
  if bool_decide (s = lit "https://ipwhois.app/json/")
  then Some (JObj [ (lit "ip", JStr (lit "192.0.2.1"));
                    (lit "country", JStr (lit "Netherlands")) ])
  else None.

(* ===================================================================== *)
(** ** Sessions on the screens used as examples *)
(* ===================================================================== *)

(** Both languages chosen, then on to the next step. *)
Definition languageClicks : list LanguageControl :=
  [ LStart; LChooseOnboarding English; LNext; LChooseTwin Dutch; LNext;
    LProceed ].

(** The identity questions answered one after the other, up to the
    feedback screen. *)
Definition identityClicks : list IdentityControl :=
  [ IStart; ITypeQ1 (lit "You are very clear"); INext;
    IToggleTone (lit "Direct"); IToggleTone (lit "Calm"); INext;
    IChooseQ3 (lit "Tell me more"); INext;
    IChooseQ4 (lit "Calm down"); INext;
    IToggleClient (lit "Teams"); INext ].

(** The sliders moved and released, the card left and tweaked again. *)
Definition previewClicks : list PreviewControl :=
  [ PStart; PSetRating 8; PReleaseRating; PSetDirectness 9; PReleaseTone;
    PNext; PTweak; PSetWarmth 10; PReleaseTone; PNext; PSharpen; PFinish ].

(* ===================================================================== *)
(** ** The gradient in the numbers of the code: IEEE 754 doubles *)
(* ===================================================================== *)

(** [computePreviewGradient] once more, this time on binary64 floating
    point numbers with the rounding of the machine, NaN and the
    infinities. The definitions carry the names of the exact ones above
    and follow the same lines of the source. A number literal of the
    source is the double nearest to it, here as there. *)
Module Double.

Import PrimFloat.
Local Open Scope float_scope.

(** An integer as a number; exact up to 2^53 in magnitude. *)
Definition ofZ (z : Z) : float :=
  if (z <? 0)%Z then - of_uint63 (Uint63.of_Z (- z))
  else of_uint63 (Uint63.of_Z z).

(** The integer a number is, if it is one. *)
Definition toZ (x : float) : option Z :=
  match FloatOps.Prim2SF x with
  | SpecFloat.S754_zero _ => Some 0%Z
  | SpecFloat.S754_finite s m e =>
      let n := if (0 <=? e)%Z then Some (Z.pos m * 2 ^ e)%Z
               else if (Z.pos m mod 2 ^ (- e) =? 0)%Z
                    then Some (Z.pos m / 2 ^ (- e))%Z else None in
      if s then Z.opp <$> n else n
  | _ => None
  end.

(** [Math.max(a, b)]: NaN if either is; +0 counts as larger than -0. *)
Definition mathMax (a b : float) : float :=
  if is_nan a || is_nan b then nan
  else if a <? b then b
  else if b <? a then a
  else if is_zero a then a + b
  else a.

(** [Math.min(a, b)]: NaN if either is; -0 counts as smaller than +0. *)
Definition mathMin (a b : float) : float :=
  if is_nan a || is_nan b then nan
  else if a <? b then a
  else if b <? a then b
  else if is_zero a then - (- a + - b)
  else a.

(** From 2^52 on every double is an integer. *)
Definition two52 : float := 4503599627370496.

(** The largest integer not above [x]. Adding and taking away 2^52 rounds
    to an integer, which is [x] rounded down or up. *)
Definition floor (x : float) : float :=
  if is_nan x || (two52 <=? abs x) then x
  else
    let n := if x <? 0 then (x - two52) + two52 else (x + two52) - two52 in
    if x <? n then n - 1 else n.

(** [Math.round]: the nearest integer, halves rounded up; NaN, the
    infinities and the zeros are returned as they are, and a negative
    number that rounds to zero gives -0. *)
Definition mathRound (x : float) : float :=
  if is_nan x || is_zero x || (two52 <=? abs x) then x
  else
    let f := floor x in
    let r := if 0.5 <=? x - f then f + 1 else f in
    if is_zero r && (x <? 0) then - 0 else r.

(** A number inside a template literal. Only the numbers a stop can be
    for weights that are not negative are covered: NaN, the infinities and
    the integers below 2^53 in magnitude; [None] for any other. *)
Definition numberToString (x : float) : option JsString.t :=
  if is_nan x then Some (lit "NaN")
  else if x =? infinity then Some (lit "Infinity")
  else if x =? neg_infinity then Some (lit "-Infinity")
  else
    match toZ x with
    | Some z => if (Z.abs z <? 2 ^ 53)%Z then Some (ofInt z) else None
    | None => None
    end.

#[warnings="-inexact-float"] Definition epsilonTotal : float := 0.0001.
Definition minSeg : float := 8.
Definition overlap : float := 2.

(** [Math.max(0.0001, d + w + c)] *)
Definition totalWeight (d w c : float) : float :=
  mathMax epsilonTotal (d + w + c).

Definition percentages (d w c : float) : list float :=
  let total := totalWeight d w c in
  [ (d / total) * 100; (w / total) * 100; (c / total) * 100 ].

Record ClampState := {
  adjusted : list float;
  remaining : float;
  flexibleTotal : float
}.

Definition clampInit : ClampState :=
  {| adjusted := [0; 0; 0]; remaining := 100; flexibleTotal := 0 |}.

Definition clampStep (parts : list float) (st : ClampState) (i : nat)
  : ClampState :=
  let p := nth i parts 0 in
  if p <? minSeg then
    {| adjusted := <[ i := minSeg ]> (adjusted st);
       remaining := remaining st - minSeg;
       flexibleTotal := flexibleTotal st |}
  else
    {| adjusted := adjusted st;
       remaining := remaining st;
       flexibleTotal := flexibleTotal st + p |}.

Definition firstPass (parts : list float) : ClampState :=
  fold_left (clampStep parts) [0; 1; 2]%nat clampInit.

(** [flexibleTotal <= 0]; false for NaN. *)
Definition evenSplitTaken (st : ClampState) : bool := flexibleTotal st <=? 0.

(** [adjusted[i] === 0] holds for either zero and never for NaN. *)
Definition shareStep (parts : list float) (st : ClampState) (adj : list float)
    (i : nat) : list float :=
  if nth i adj 0 =? 0
  then <[ i := (nth i parts 0 / flexibleTotal st) * remaining st ]> adj
  else adj.

Definition secondPass (parts : list float) (st : ClampState) : list float :=
  if evenSplitTaken st then [100 / 3; 100 / 3; 100 / 3]
  else fold_left (shareStep parts st) [0; 1; 2]%nat (adjusted st).

Definition segmentWidths (d w c : float) : list float :=
  let parts := percentages d w c in
  secondPass parts (firstPass parts).

Definition usesEvenSplit (d w c : float) : bool :=
  evenSplitTaken (firstPass (percentages d w c)).

(** [s1a], [s1b], [s2a], [s2b]. *)
Definition gradientStops (d w c : float) : float * float * float * float :=
  let adj := segmentWidths d w c in
  let stop1 := mathRound (nth 0 adj 0) in
  let stop2 := mathRound (nth 0 adj 0 + nth 1 adj 0) in
  (mathMax 0 (stop1 - overlap), mathMin 100 (stop1 + overlap),
   mathMax 0 (stop2 - overlap), mathMin 100 (stop2 + overlap)).

Definition pct (x : float) : option JsString.t :=
  (fun s => s ++ lit "%") <$> numberToString x.

Definition computePreviewGradient (d w c : float) : option JsString.t :=
  let '(s1a, s1b, s2a, s2b) := gradientStops d w c in
  a ← pct s1a; b ← pct s1b; a' ← pct s2a; b' ← pct s2b;
  Some (lit "linear-gradient(90deg, " ++ c1 ++ lit " 0%, " ++ c1 ++ lit " " ++ a
          ++ lit ", " ++ c2 ++ lit " " ++ b
          ++ lit ", " ++ c2 ++ lit " " ++ a'
          ++ lit ", " ++ c3 ++ lit " " ++ b'
          ++ lit ", " ++ c3 ++ lit " 100%)").

(** [Math.max(0, Math.min(1, p))], the clamp of [handleStepProgress]. *)
Definition clamp01 (p : float) : float := mathMax 0 (mathMin 1 p).



End Double.

(** *** What is evaluated on each of the thousand slider triples *)

Section SliderChecks.

Import PrimFloat.
Local Open Scope float_scope.

Variables d w c : Z.

Local Abbreviation fd := (Double.ofZ d).
Local Abbreviation fw := (Double.ofZ w).
Local Abbreviation fc := (Double.ofZ c).




(** The stops of the doubles are the integers of the exact model, the two
    strings are the same, and the stops are in order. *)
Definition sliderStopsChecked : bool :=
  let '(a, b, a', b') := Double.gradientStops fd fw fc in
  let '(s1a, s1b, s2a, s2b) :=
    gradientStops (inject_Z d) (inject_Z w) (inject_Z c) in
  bool_decide (List.map Double.toZ [a; b; a'; b']
               = [Some s1a; Some s1b; Some s2a; Some s2b])
  && bool_decide (Double.computePreviewGradient fd fw fc
                  = Some (computePreviewGradient (inject_Z d) (inject_Z w)
                            (inject_Z c)))
  && ((0 <? s1a) && (s1a <? s1b) && (s1b <? s2a) && (s2a <? s2b)
      && (s2b <? 100) && (s1b - s1a =? 4) && (s2b - s2a =? 4))%Z.

End SliderChecks.

(** A check on every slider triple. *)
Definition onSliderTriples (check : Z -> Z -> Z -> bool) : bool :=
  forallb (fun d => forallb (fun w => forallb (check d w) sliderValues)
     sliderValues) sliderValues.

(* ===================================================================== *)
(** ** States of a session used as examples *)
(* ===================================================================== *)

(** The language step after "Start" and a click on "English". *)
Definition englishChosen : Panel :=
  setOnboardingLang (Some (lit "English")) (setShowIntro false initialPanel).

(** A state of the identity step at question index 3: no phrase selected,
    the "Other" toggle closed again after a text was typed into it. *)
Definition q4OtherClosed : Panel :=
  setSubIndex 3
    (setIdentityAnswers
       {| q1Text := lit "You are very clear";
          q2Selections := [lit "Direct"]; q2OtherOpen := false; q2OtherText := [];
          q3Selection := Some (lit "Tell me more");
          q3OtherOpen := false; q3OtherText := [];
          q4Selection := None; q4OtherOpen := false;
          q4OtherText := lit "No pain no gain";
          q5Selections := []; q5OtherOpen := false; q5OtherText := [] |}
       (setShowIntro false initialPanel)).

(** The end of the language step: both choices made, the review screen
    shown, the step recorded as complete. *)
Definition languageDone : Panel :=
  setSubIndex 2
    (setTwinLang (Some (lit "Dutch"))
       (setOnboardingLang (Some (lit "English"))
          (setShowIntro false initialPanel))).

Definition homeLanguageDone : Home :=
  {| showStepper := true; currentStep := 0;
     stepProgress := {[ lit "language" := 1%Q ]} |}.

(** After a commit at (9, 2, 9) and "Next" on the preview screen. *)
Definition previewFeedback : Panel :=
  setSubIndex 1
    (fst (commitPreviewFromSliders
            (setSliders 9 2 9 (setShowIntro false initialPanel)))).


(* ===================================================================== *)
(** * Properties *)
(* ===================================================================== *)

(** ** Rational arithmetic used below *)

Local Open Scope Q_scope.




(** ** The normalized percentages *)

Section Percentages.

Variables d w c : Q.

Local Abbreviation total := (totalWeight d w c).


End Percentages.

(** ** The two loops over three parts *)

Section Segments.

Variables p1 p2 p3 : Q.

Local Abbreviation parts := [p1; p2; p3].
Local Abbreviation st := (firstPass parts).
Local Abbreviation segs := (secondPass parts st).

Local Abbreviation b1 := (Qltb p1 minSeg).
Local Abbreviation b2 := (Qltb p2 minSeg).
Local Abbreviation b3 := (Qltb p3 minSeg).











End Segments.

(** ** [computePreviewGradient]: the segment widths *)


Lemma sliderValues_spec (z : Z) : (1 <= z <= 10)%Z -> In z sliderValues.
Proof.
  intros H. unfold sliderValues. cbn [In].
  assert (z = 1 \/ z = 2 \/ z = 3 \/ z = 4 \/ z = 5 \/ z = 6 \/ z = 7 \/
          z = 8 \/ z = 9 \/ z = 10)%Z by lia.
  intuition.
Qed.



(** C4, as stated, fails: on (1, 1, 1) no percentage is below the clamp and
    the even-split branch is not the one that runs. *)
Lemma equal_weights_not_even_split :
  ~ (usesEvenSplit 1 1 1 = true) /\
  Forall (fun p => ~ p < minSeg) (percentages 1 1 1).
Proof.
  split.
  - vm_compute. discriminate.
  - repeat constructor; intros H; vm_compute in H; discriminate.
Qed.

(** C4 (amended): [computePreviewGradient(1,1,1)] yields three segments of
    width 100/3 each, through the proportional branch: each percentage is
    100/3, none is clamped, [flexibleTotal] is 100 and [remaining] is 100. *)
Theorem equal_weights_thirds :
  let parts := percentages 1 1 1 in
  let st := firstPass parts in
  Forall (fun x => x == 100 / 3) (segmentWidths 1 1 1) /\
  length (segmentWidths 1 1 1) = 3%nat /\
  usesEvenSplit 1 1 1 = false /\
  Forall (fun p => p == 100 / 3) parts /\
  clampedParts parts = [] /\
  flexibleTotal st == 100 /\
  remaining st == 100 /\
  segmentWidths 1 1 1
    = List.map (fun p => p / flexibleTotal st * remaining st) parts.
Proof.
  cbv zeta. repeat split.
  - repeat constructor; vm_compute; reflexivity.
  - repeat constructor; vm_compute; reflexivity.
Qed.

(** The gradient of (1, 1, 1): stops at 33 and 67, two points of overlap. *)
Example gradient_equal_weights :
  computePreviewGradient 1 1 1 =
  lit "linear-gradient(90deg, rgb(214, 107, 250) 0%, rgb(214, 107, 250) 31%, rgb(255, 210, 122) 35%, rgb(255, 210, 122) 65%, rgb(105, 237, 199) 69%, rgb(105, 237, 199) 100%)".
Proof. vm_compute. reflexivity. Qed.


Local Close Scope Q_scope.

(** ** [commitPreviewFromSliders]: the text *)

Lemma templates_distinct :
  warmthTemplate <> directnessTemplate /\
  warmthTemplate <> defaultTemplate /\
  directnessTemplate <> defaultTemplate.
Proof. repeat split; intros H; vm_compute in H; discriminate. Qed.

(** None of the three messages ends in a question mark followed by the
    straight quote: each ends in the curly quote U+201D. *)
Lemma templates_end_in_curly_quote :
  Forall (fun t => last (msg t) = Some rdquo /\
                   endsWith challengePattern (msg t) = false)
         [warmthTemplate; directnessTemplate; defaultTemplate].
Proof. repeat constructor. Qed.

Lemma selectTemplate_cases (d w : Z) :
  (w >= 7 /\ w > d -> selectTemplate d w = warmthTemplate) /\
  (~ (w >= 7 /\ w > d) -> d >= 7 /\ d >= w ->
     selectTemplate d w = directnessTemplate) /\
  (~ (w >= 7 /\ w > d) -> ~ (d >= 7 /\ d >= w) ->
     selectTemplate d w = defaultTemplate).
Proof.
  unfold selectTemplate.
  destruct (w >=? 7) eqn:E1, (w >? d) eqn:E2, (d >=? 7) eqn:E3,
           (d >=? w) eqn:E4; cbn [andb]; repeat split; intros;
    try reflexivity; exfalso; lia.
Qed.

Lemma commit_previewMessage (p : Panel) :
  previewMessage (previewControls (fst (commitPreviewFromSliders p)))
  = Some (selectMessage (directness (previewControls p))
                        (warmth (previewControls p))
                        (challenge (previewControls p))).
Proof. reflexivity. Qed.

(** C6: for every tone triple in [1,10]^3 the message/reflection pair that
    [commitPreviewFromSliders] stores is built from the warmth-led template
    when warmth >= 7 and warmth > directness; otherwise from the
    directness-led template when directness >= 7 and directness >= warmth;
    otherwise from the neutral default template. *)
Theorem template_priority (p : Panel) (d w c : Z) :
  directness (previewControls p) = d ->
  warmth (previewControls p) = w ->
  challenge (previewControls p) = c ->
  1 <= d <= 10 -> 1 <= w <= 10 -> 1 <= c <= 10 ->
  let stored :=
    previewMessage (previewControls (fst (commitPreviewFromSliders p))) in
  (w >= 7 /\ w > d -> stored = Some (withTweak c warmthTemplate)) /\
  (~ (w >= 7 /\ w > d) -> d >= 7 /\ d >= w ->
     stored = Some (withTweak c directnessTemplate)) /\
  (~ (w >= 7 /\ w > d) -> ~ (d >= 7 /\ d >= w) ->
     stored = Some (withTweak c defaultTemplate)).
Proof.
  intros Hd Hw Hc _ _ _ stored. unfold stored.
  rewrite commit_previewMessage, Hd, Hw, Hc. unfold selectMessage.
  destruct (selectTemplate_cases d w) as (H1 & H2 & H3).
  repeat split; intros.
  - now rewrite H1.
  - now rewrite H2.
  - now rewrite H3.
Qed.

Lemma template_priority_witness :
  let stored :=
    previewMessage (previewControls
      (fst (commitPreviewFromSliders (setSliders 3 8 5 initialPanel)))) in
  (8 >= 7 /\ 8 > 3 -> stored = Some (withTweak 5 warmthTemplate)) /\
  (~ (8 >= 7 /\ 8 > 3) -> 3 >= 7 /\ 3 >= 8 ->
     stored = Some (withTweak 5 directnessTemplate)) /\
  (~ (8 >= 7 /\ 8 > 3) -> ~ (3 >= 7 /\ 3 >= 8) ->
     stored = Some (withTweak 5 defaultTemplate)).
Proof.
  apply (template_priority (setSliders 3 8 5 initialPanel) 3 8 5);
    first [ reflexivity | lia ].
Defined.

(** C2, as stated, fails: after the commit at (9, 2, 9) the stored message
    is the directness-led message itself; the confrontational clause is
    not in front of its closing quote. *)
Lemma challenge_suffix_not_applied :
  let p := setSliders 9 2 9 initialPanel in
  let stored :=
    previewMessage (previewControls (fst (commitPreviewFromSliders p))) in
  challenge (previewControls p) >= 8 /\
  msg <$> stored = Some directnessMsg /\
  clauseBeforeClosingQuote <$> (msg <$> stored) = Some false.
Proof. cbv zeta. repeat split. vm_compute. discriminate. Qed.

(** C2 (amended): for the tone values directness = 9, warmth = 2,
    challenge = 9, [commitPreviewFromSliders] commits the three values and
    selects the directness-led template; the rewrite guarded by
    challenge >= 8 looks for a question mark followed by a double quote at
    the end of the message, and the directness-led message ends in a
    period followed by the closing quote, so the message stays the
    directness-led one; the demo selector returns its directness-led
    sentence, scheduled after 220 ms. *)
Theorem directness_led_scenario (p : Panel) :
  directness (previewControls p) = 9 ->
  warmth (previewControls p) = 2 ->
  challenge (previewControls p) = 9 ->
  let r := commitPreviewFromSliders p in
  let v' := previewControls (fst r) in
  (commDirectness v', commWarmth v', commChallenge v') = (9, 2, 9) /\
  selectTemplate 9 2 = directnessTemplate /\
  previewMessage v' = Some directnessTemplate /\
  drop (length directnessMsg - 2) directnessMsg = [N_of_ascii "."; rdquo] /\
  gen 9 2 9 = directnessDemo /\
  In (SetTimeout (ShowDemo directnessDemo) 220) (snd r).
Proof.
  intros Hd Hw Hc r v'. unfold v', r.
  rewrite commit_previewMessage.
  unfold commitPreviewFromSliders. cbn [fst snd previewControls setPreviewControls
    commDirectness commWarmth commChallenge].
  rewrite Hd, Hw, Hc. repeat split. left. reflexivity.
Qed.

Lemma directness_led_scenario_witness :
  let r := commitPreviewFromSliders (setSliders 9 2 9 initialPanel) in
  let v' := previewControls (fst r) in
  (commDirectness v', commWarmth v', commChallenge v') = (9, 2, 9) /\
  selectTemplate 9 2 = directnessTemplate /\
  previewMessage v' = Some directnessTemplate /\
  drop (length directnessMsg - 2) directnessMsg = [N_of_ascii "."; rdquo] /\
  gen 9 2 9 = directnessDemo /\
  In (SetTimeout (ShowDemo directnessDemo) 220) (snd r).
Proof.
  apply (directness_led_scenario (setSliders 9 2 9 initialPanel));
    reflexivity.
Defined.

(** ** The progress effect on the language step *)

(** Evaluates the comparisons of two literal step ids. *)
Ltac eval_id_tests :=
  repeat match goal with
         | |- context [bool_decide (@eq (list N) (lit ?a) (lit ?b))] =>
             let t := constr:(bool_decide (@eq (list N) (lit a) (lit b))) in
             let v := eval vm_compute in t in
             change t with v
         end;
  cbv iota.

(** C1, as stated, fails: after "Start" and a click on "English" exactly
    one of the two choices is set, the sub-index is still 0, and the value
    reported is 0, not 0.5. *)
Lemma language_progress_ignores_choice :
  truthy (onboardingLang (languageAnswers englishChosen)) = true /\
  truthy (twinLang (languageAnswers englishChosen)) = false /\
  ~ (progressValue (lit "language") 0 6 englishChosen == 1 # 2)%Q.
Proof. repeat split. intros H. vm_compute in H. discriminate. Qed.

(** C1 (amended): for the language step the Progress Calculator returns
    the sub-index, clamped to [0, 2], divided by 2: 0 at sub-index 0 (or
    below), 0.5 at sub-index 1 and 1 at sub-index 2 (or above), whatever
    the two language choices are. *)
Theorem language_progress_by_subIndex
    (p : Panel) (choices : LanguageState) (stepIndex total : Z) :
  let v := progressValue (lit "language") stepIndex total
             (setLanguageAnswers choices p) in
  (v == inject_Z (Z.max 0 (Z.min 2 (subIndex p))) / 2)%Q /\
  ((v == 0)%Q <-> subIndex p <= 0) /\
  ((v == 1 # 2)%Q <-> subIndex p = 1) /\
  ((v == 1)%Q <-> 2 <= subIndex p).
Proof.
  cbv zeta. unfold progressValue. eval_id_tests.
  cbn [subIndex setLanguageAnswers].
  split; [reflexivity|].
  assert (Hc : Z.max 0 (Z.min 2 (subIndex p)) = 0 /\ subIndex p <= 0 \/
               Z.max 0 (Z.min 2 (subIndex p)) = 1 /\ subIndex p = 1 \/
               Z.max 0 (Z.min 2 (subIndex p)) = 2 /\ 2 <= subIndex p) by lia.
  destruct Hc as [[-> H] | [[-> H] | [-> H]]];
    repeat split; intros; try lia; try reflexivity;
    match goal with E : (_ == _)%Q |- _ => vm_compute in E; discriminate end.
Qed.

(** ** [goNext] on the identity step *)

Lemma goNext_identity (p : Panel) :
  goNext (lit "identity") p = advanceOrLeave 5 (identityChecks p) p.
Proof. unfold goNext. eval_id_tests. reflexivity. Qed.

Lemma trimsToEmpty_true (s : JsString.t) : trimsToEmpty s = true <-> trim s = [].
Proof. unfold trimsToEmpty. destruct (trim s); split; congruence. Qed.

Lemma isSet_true (o : option JsString.t) : isSet o = true <-> o <> None.
Proof. destruct o; cbn; split; congruence. Qed.

Lemma otherGiven_true (open : bool) (s : JsString.t) :
  otherGiven open s = true <-> open = true /\ trim s <> [].
Proof.
  unfold otherGiven. rewrite andb_true_iff, negb_true_iff.
  rewrite <- trimsToEmpty_true. destruct (trimsToEmpty s); intuition congruence.
Qed.

(** C7: on the identity step at sub-index 0, with a free text that trims
    to the empty string, [goNext] returns the state it was given (the
    sub-index stays 0, no answer changes) and its only call is the
    [alert]; no call reaches the parent, whose state stays as it is. *)
Theorem goNext_identity_q1_blocked (p : Panel) :
  subIndex p = 0 ->
  trim (q1Text (identityAnswers p)) = [] ->
  goNext (lit "identity") p = (p, [Alert (lit "Please answer Q1 to continue")]) /\
  subIndex (fst (goNext (lit "identity") p)) = 0 /\
  forall h : Home, runCalls (snd (goNext (lit "identity") p)) h = h.
Proof.
  intros Hs Ht. apply trimsToEmpty_true in Ht.
  assert (E : goNext (lit "identity") p
              = (p, [Alert (lit "Please answer Q1 to continue")])).
  { rewrite goNext_identity. unfold advanceOrLeave, identityChecks, firstFailing.
    rewrite Hs, Ht. reflexivity. }
  rewrite E. cbn [fst snd]. auto.
Qed.

Lemma goNext_identity_q1_blocked_witness :
  let p := setShowIntro false initialPanel in
  goNext (lit "identity") p = (p, [Alert (lit "Please answer Q1 to continue")]) /\
  subIndex (fst (goNext (lit "identity") p)) = 0 /\
  forall h : Home, runCalls (snd (goNext (lit "identity") p)) h = h.
Proof.
  apply (goNext_identity_q1_blocked (setShowIntro false initialPanel));
    reflexivity.
Defined.

(** C5, as stated, fails: the other-text is non-empty after trimming, yet
    [goNext] rejects the transition, because the toggle is closed. *)
Lemma q4_other_text_needs_open_toggle :
  subIndex q4OtherClosed = 3 /\
  trim (q4OtherText (identityAnswers q4OtherClosed)) <> [] /\
  goNext (lit "identity") q4OtherClosed
    = (q4OtherClosed, [Alert (lit "Please select a phrase for Q4")]).
Proof. repeat split. vm_compute. discriminate. Qed.

(** C5 (amended): on the identity step, [goNext] from question index 3
    advances to the next sub-index if and only if a phrase is selected, or
    the "Other" toggle is open and its text is non-empty after trimming;
    otherwise the transition is rejected with a blocking notice and the
    state, sub-index included, is unchanged. *)
Theorem goNext_identity_q4_guard (p : Panel) :
  subIndex p = 3 ->
  let a := identityAnswers p in
  let answered :=
    q4Selection a <> None \/
    (q4OtherOpen a = true /\ trim (q4OtherText a) <> []) in
  let r := goNext (lit "identity") p in
  (answered <-> subIndex (fst r) = subIndex p + 1) /\
  (answered -> r = (setSubIndex 4 p, [])) /\
  (~ answered -> r = (p, [Alert (lit "Please select a phrase for Q4")])).
Proof.
  intros Hs a answered r.
  assert (Hdec : answered <->
            isSet (q4Selection a) || otherGiven (q4OtherOpen a) (q4OtherText a) = true).
  { unfold answered. rewrite orb_true_iff, isSet_true, otherGiven_true. tauto. }
  assert (Hr : r = if isSet (q4Selection a) || otherGiven (q4OtherOpen a) (q4OtherText a)
                   then (setSubIndex 4 p, [])
                   else (p, [Alert (lit "Please select a phrase for Q4")])).
  { unfold r. rewrite goNext_identity.
    unfold advanceOrLeave, identityChecks, firstFailing. rewrite Hs. fold a.
    cbn [Z.eqb Z.ltb Z.compare Pos.compare Pos.compare_cont Pos.eqb andb
         List.find fst].
    destruct (isSet (q4Selection a)), (otherGiven (q4OtherOpen a) (q4OtherText a));
      reflexivity. }
  rewrite Hr, Hdec.
  destruct (isSet (q4Selection a) || otherGiven (q4OtherOpen a) (q4OtherText a));
    cbn [fst subIndex setSubIndex]; rewrite ?Hs;
    repeat split; intros; try congruence; try lia; try reflexivity.
Qed.

Lemma goNext_identity_q4_guard_witness :
  let a := identityAnswers q4OtherClosed in
  let answered :=
    q4Selection a <> None \/
    (q4OtherOpen a = true /\ trim (q4OtherText a) <> []) in
  let r := goNext (lit "identity") q4OtherClosed in
  (answered <-> subIndex (fst r) = subIndex q4OtherClosed + 1) /\
  (answered -> r = (setSubIndex 4 q4OtherClosed, [])) /\
  (~ answered -> r = (q4OtherClosed, [Alert (lit "Please select a phrase for Q4")])).
Proof.
  apply (goNext_identity_q4_guard q4OtherClosed). reflexivity.
Defined.

(** ** The effects of a change of step *)

(** C8, as stated, fails: "Proceed to Step 2" on the language step makes
    identity the active step, and the reset that follows clears the two
    answers of the language step, which is not the step entered. *)
Lemma entering_identity_clears_language :
  let r := goNext (lit "language") languageDone in
  let h' := runCalls (snd r) homeLanguageDone in
  let after := withStepEffects homeLanguageDone h' (fst r) in
  r = (languageDone, [CallOnNext]) /\
  currentStepId homeLanguageDone = Some (lit "language") /\
  currentStepId h' = Some (lit "identity") /\
  onboardingLang (languageAnswers languageDone) = Some (lit "English") /\
  languageAnswers (snd after) = emptyLanguage /\
  languageAnswers (snd after) <> languageAnswers languageDone.
Proof. cbv zeta. repeat split. vm_compute. discriminate. Qed.

Lemma reportProgress_other (h : Home) (v : Q) (sid sid' : JsString.t) :
  currentStepId h = Some sid -> sid' <> sid ->
  stepProgress (reportProgress v h) !! sid' = stepProgress h !! sid' /\
  currentStepId (reportProgress v h) = Some sid.
Proof.
  unfold currentStepId, reportProgress. intros Hid Hne.
  destruct (stepAt (currentStep h)) as [s|] eqn:Es; [|discriminate].
  cbn in Hid. injection Hid as Hid. subst sid.
  cbn [handleStepProgress stepProgress currentStep]. rewrite Es.
  split; [|reflexivity]. apply lookup_insert_ne. congruence.
Qed.

(** C8 (amended): whenever the id of the active step changes, the answers
    of the language, method, example and guardrails steps are reset to
    their initial values, those of the identity step too (apart from the
    "Other" toggle of its third question, about which nothing is said),
    the live preview controls return to their initial values, the
    sub-index is set to 0 and the intro flag to true; the committed tone
    values are kept, and so is every entry of the ProgressMap recorded for
    a step other than the one entered. *)
Theorem step_change_resets_all_answers
    (h h' : Home) (p : Panel) (sid : JsString.t) :
  currentStepId h' = Some sid ->
  currentStepId h' <> currentStepId h ->
  let after := withStepEffects h h' p in
  let p' := snd after in
  let a := identityAnswers p' in
  let v := previewControls p' in
  subIndex p' = 0 /\ showIntro p' = true /\
  languageAnswers p' = emptyLanguage /\
  methodAnswers p' = emptyMethod /\
  exampleAnswers p' = emptyExample /\
  guardrailsAnswers p' = emptyGuardrails /\
  (q1Text a = [] /\ q2Selections a = [] /\ q2OtherOpen a = false /\
   q2OtherText a = [] /\ q3Selection a = None /\ q3OtherText a = [] /\
   q4Selection a = None /\ q4OtherOpen a = false /\ q4OtherText a = [] /\
   q5Selections a = [] /\ q5OtherOpen a = false /\ q5OtherText a = []) /\
  (previewRating v = 5 /\ showAdvancedPreviewControls v = false /\
   directness v = 5 /\ warmth v = 5 /\ challenge v = 5) /\
  (commDirectness v = commDirectness (previewControls p) /\
   commWarmth v = commWarmth (previewControls p) /\
   commChallenge v = commChallenge (previewControls p)) /\
  (forall sid', sid' <> sid ->
     stepProgress (fst after) !! sid' = stepProgress h' !! sid').
Proof.
  intros Hid Hne after p' a v.
  unfold a, v, p', after, withStepEffects.
  rewrite bool_decide_eq_false_2 by exact Hne.
  unfold onStepIdChange. rewrite Hid. cbn [fst snd].
  repeat split.
  intros sid' Hsid'. unfold progressEffect, runCalls.
  cbn [fold_left runCall].
  destruct (reportProgress_other h'
              (progressValue sid (currentStep h') (Z.of_nat (length steps)) p)
              sid sid' Hid Hsid') as [E1 Hid1].
  destruct (reportProgress_other _
              (progressValue sid (currentStep h') (Z.of_nat (length steps))
                 (showIntroEffect (resetEffect p)))
              sid sid' Hid1 Hsid') as [E2 _].
  rewrite E2. exact E1.
Qed.

Lemma step_change_resets_all_answers_witness :
  let after := withStepEffects homeLanguageDone (onNext homeLanguageDone)
                 languageDone in
  let p' := snd after in
  let a := identityAnswers p' in
  let v := previewControls p' in
  subIndex p' = 0 /\ showIntro p' = true /\
  languageAnswers p' = emptyLanguage /\
  methodAnswers p' = emptyMethod /\
  exampleAnswers p' = emptyExample /\
  guardrailsAnswers p' = emptyGuardrails /\
  (q1Text a = [] /\ q2Selections a = [] /\ q2OtherOpen a = false /\
   q2OtherText a = [] /\ q3Selection a = None /\ q3OtherText a = [] /\
   q4Selection a = None /\ q4OtherOpen a = false /\ q4OtherText a = [] /\
   q5Selections a = [] /\ q5OtherOpen a = false /\ q5OtherText a = []) /\
  (previewRating v = 5 /\ showAdvancedPreviewControls v = false /\
   directness v = 5 /\ warmth v = 5 /\ challenge v = 5) /\
  (commDirectness v = commDirectness (previewControls languageDone) /\
   commWarmth v = commWarmth (previewControls languageDone) /\
   commChallenge v = commChallenge (previewControls languageDone)) /\
  (forall sid', sid' <> lit "identity" ->
     stepProgress (fst after) !! sid'
     = stepProgress (onNext homeLanguageDone) !! sid').
Proof.
  apply (step_change_resets_all_answers homeLanguageDone
           (onNext homeLanguageDone) languageDone (lit "identity")).
  - reflexivity.
  - vm_compute. discriminate.
Defined.

(** ** The "tweak it" button of the preview step *)

(** C9: on the preview step, at sub-index 1, the button "Not quite, tweak
    it" sets the sub-index back to 0 and makes the advanced slider controls
    visible; the committed tone values are the ones from before. *)
Theorem tweak_returns_to_sliders (p : Panel) :
  showIntro p = false ->
  subIndex p = 1 ->
  exists p',
    clickTweak (lit "preview") p = Some p' /\
    subIndex p' = 0 /\
    showAdvancedPreviewControls (previewControls p') = true /\
    commDirectness (previewControls p') = commDirectness (previewControls p) /\
    commWarmth (previewControls p') = commWarmth (previewControls p) /\
    commChallenge (previewControls p') = commChallenge (previewControls p).
Proof.
  intros Hi Hs. exists (onTweak p).
  unfold clickTweak, tweakButtonRendered. eval_id_tests.
  rewrite Hi, Hs. repeat split.
Qed.

Lemma tweak_returns_to_sliders_witness :
  exists p',
    clickTweak (lit "preview") previewFeedback = Some p' /\
    subIndex p' = 0 /\
    showAdvancedPreviewControls (previewControls p') = true /\
    commDirectness (previewControls p') = 9 /\
    commWarmth (previewControls p') = 2 /\
    commChallenge (previewControls p') = 9.
Proof.
  apply (tweak_returns_to_sliders previewFeedback); reflexivity.
Defined.

(* ===================================================================== *)
(** * Further properties of the step panel *)
(* ===================================================================== *)

(** ** Multi-select answers *)

Lemma includes_true (t : JsString.t) (s : list JsString.t) :
  includes t s = true <-> t ∈ s.
Proof. unfold includes. apply bool_decide_eq_true. Qed.

Lemma includes_false (t : JsString.t) (s : list JsString.t) :
  includes t s = false <-> t ∉ s.
Proof. unfold includes. apply bool_decide_eq_false. Qed.

Lemma elem_of_without (t x : JsString.t) (s : list JsString.t) :
  x ∈ without t s <-> x ∈ s /\ x <> t.
Proof.
  unfold without. rewrite !list_elem_of_In, filter_In, negb_true_iff.
  rewrite bool_decide_eq_false. tauto.
Qed.

Lemma without_length (t : JsString.t) (s : list JsString.t) :
  (length (without t s) <= length s)%nat.
Proof. unfold without. apply List.filter_length_le. Qed.

Lemma without_NoDup (t : JsString.t) (s : list JsString.t) :
  NoDup s -> NoDup (without t s).
Proof.
  rewrite !NoDup_ListNoDup. unfold without. apply List.NoDup_filter.
Qed.




(** X1: the tone-word selection never grows beyond two words and never
    holds a word twice; toggling a selected word removes it, and toggling
    a third word while two are selected changes nothing. *)
Theorem toggleTone_cap (t : JsString.t) (s : list JsString.t) :
  (length s <= 2)%nat -> NoDup s ->
  (length (toggleTone t s) <= 2)%nat /\
  NoDup (toggleTone t s) /\
  (t ∈ s -> t ∉ toggleTone t s) /\
  (t ∉ s -> length s = 2%nat -> toggleTone t s = s) /\
  (t ∉ s -> (length s < 2)%nat -> toggleTone t s = s ++ [t]).
Proof.
  intros Hlen Hnd. unfold toggleTone.
  destruct (includes t s) eqn:Hin.
  - apply includes_true in Hin. pose proof (without_length t s).
    repeat split; intros; try contradiction; try lia.
    + now apply without_NoDup.
    + rewrite elem_of_without. tauto.
  - apply includes_false in Hin.
    destruct (2 <=? length s)%nat eqn:Hcap.
    + apply Nat.leb_le in Hcap.
      repeat split; intros; try contradiction; auto; lia.
    + apply Nat.leb_gt in Hcap.
      repeat split; intros; try contradiction; try lia; auto.
      * rewrite length_app. cbn. lia.
      * apply NoDup_app. repeat split; auto.
        -- intros x Hx Hx'. apply list_elem_of_singleton in Hx'. congruence.
        -- apply NoDup_singleton.
Qed.

Lemma toggleTone_cap_witness :
  let s := [lit "Direct"; lit "Warm"] in
  let t := lit "Calm" in
  (length (toggleTone t s) <= 2)%nat /\
  NoDup (toggleTone t s) /\
  (t ∈ s -> t ∉ toggleTone t s) /\
  (t ∉ s -> length s = 2%nat -> toggleTone t s = s) /\
  (t ∉ s -> (length s < 2)%nat -> toggleTone t s = s ++ [t]).
Proof.
  apply (toggleTone_cap (lit "Calm") [lit "Direct"; lit "Warm"]).
  - cbn. lia.
  - apply (proj1 (bool_decide_eq_true _)). vm_compute. reflexivity.
Defined.



(** ** [goNext], [goPrev] and the buttons *)

Lemma advanceOrLeave_cases (lastSub : Z) (checks : list (bool * JsString.t))
    (p : Panel) :
  (exists notice, advanceOrLeave lastSub checks p = (p, [Alert notice])
                  /\ subIndex p < lastSub) \/
  (advanceOrLeave lastSub checks p = (p, [CallOnNext]) /\ lastSub <= subIndex p) \/
  (advanceOrLeave lastSub checks p = (setSubIndex (subIndex p + 1) p, [])
   /\ subIndex p < lastSub).
Proof.
  unfold advanceOrLeave. destruct (subIndex p <? lastSub) eqn:E.
  - apply Z.ltb_lt in E. destruct (firstFailing checks) as [n|]; eauto.
  - apply Z.ltb_ge in E. auto.
Qed.

(** The [lastSub] constant of each branch of [goNext]. *)
Lemma goNext_branches (sid : JsString.t) (p : Panel) :
  (exists lastSub checks, goNext sid p = advanceOrLeave lastSub checks p) \/
  goNext sid p = (p, [CallOnNext]).
Proof.
  unfold goNext.
  repeat (case_bool_decide; [left; eauto|]). now right.
Qed.

(** X3: whatever the step and the state, [goNext] does one of three
    things: it returns the state untouched with one notice, it returns the
    state untouched and calls the parent's [onNext], or it moves the
    sub-index up by one, changes nothing else and calls nothing. *)
Theorem goNext_outcomes (sid : JsString.t) (p : Panel) :
  (exists notice, goNext sid p = (p, [Alert notice])) \/
  goNext sid p = (p, [CallOnNext]) \/
  goNext sid p = (setSubIndex (subIndex p + 1) p, []).
Proof.
  destruct (goNext_branches sid p) as [(l & cs & ->) | ->]; [|auto].
  destruct (advanceOrLeave_cases l cs p) as [(n & -> & _) | [[-> _] | [-> _]]]; eauto.
Qed.

Lemma goNext_method (p : Panel) : goNext (lit "method") p = (p, [CallOnNext]).
Proof. unfold goNext. eval_id_tests. reflexivity. Qed.

(** X4: [goNext] has no branch for the method step: there it calls the
    parent's [onNext] in every state, answered or not, while the "Next"
    button of the method step refuses to leave an unanswered question. *)
Theorem goNext_method_unguarded (p : Panel) :
  0 <= subIndex p < 3 ->
  firstFailing (methodChecks p) <> None ->
  goNext (lit "method") p = (p, [CallOnNext]) /\
  exists notice, methodNext p = (p, [Alert notice]).
Proof.
  intros Hs Hf. split; [apply goNext_method|].
  unfold methodNext, advanceCappedOrLeave.
  rewrite (proj2 (Z.ltb_lt _ _)) by lia.
  destruct (firstFailing (methodChecks p)) as [n|]; [eauto|congruence].
Qed.

Lemma goNext_method_unguarded_witness :
  let p := setShowIntro false initialPanel in
  goNext (lit "method") p = (p, [CallOnNext]) /\
  exists notice, methodNext p = (p, [Alert notice]).
Proof.
  apply (goNext_method_unguarded (setShowIntro false initialPanel)).
  - cbn. lia.
  - vm_compute. discriminate.
Defined.

Lemma advanceCapped_eq (lastSub : Z) (checks : list (bool * JsString.t))
    (p : Panel) :
  advanceCappedOrLeave lastSub checks p = advanceOrLeave lastSub checks p.
Proof.
  unfold advanceCappedOrLeave, advanceOrLeave.
  destruct (subIndex p <? lastSub) eqn:E; [|reflexivity].
  apply Z.ltb_lt in E. rewrite Z.min_r by lia. reflexivity.
Qed.

(** X5: on the identity, example and guardrails steps the "Next" button
    below the questions and [goNext] do the same in every state; the cap
    [Math.min(lastSub, s + 1)] of the button never takes effect. *)
Theorem next_buttons_agree_with_goNext (p : Panel) :
  identityNext p = goNext (lit "identity") p /\
  exampleNext p = goNext (lit "example") p /\
  guardrailsNext p = goNext (lit "guardrails") p.
Proof.
  unfold identityNext, exampleNext, guardrailsNext, goNext. eval_id_tests.
  rewrite !advanceCapped_eq. auto.
Qed.

(** X6: [goPrev] and the "Previous" buttons undo an advance of [goNext]:
    when [goNext] moved the sub-index up from a non-negative value, either
    of them, applied to the result, gives back the state [goNext] started
    from, and [goPrev] calls nothing. *)
Theorem goPrev_undoes_goNext (sid : JsString.t) (p : Panel) :
  0 <= subIndex p ->
  snd (goNext sid p) = [] ->
  goPrev (fst (goNext sid p)) = (p, []) /\
  previousButton (fst (goNext sid p)) = p.
Proof.
  intros Hs Hc.
  destruct (goNext_branches sid p) as [(l & cs & E0) | E0];
    rewrite E0 in Hc |- *; try discriminate.
  destruct (advanceOrLeave_cases l cs p) as [(n & E & _) | [[E _] | [E _]]];
    rewrite E in Hc |- *; try discriminate.
  cbn [fst]. unfold goPrev, previousButton. cbn [subIndex setSubIndex].
  rewrite (proj2 (Z.eqb_neq _ _)) by lia.
  replace (Z.max 0 (subIndex p + 1 - 1)) with (subIndex p) by lia.
  destruct p; split; reflexivity.
Qed.

Lemma goPrev_undoes_goNext_witness :
  goPrev (fst (goNext (lit "language") englishChosen)) = (englishChosen, []) /\
  previousButton (fst (goNext (lit "language") englishChosen)) = englishChosen.
Proof.
  apply (goPrev_undoes_goNext (lit "language") englishChosen).
  - cbn. lia.
  - reflexivity.
Defined.

(** ** The progress effect on every step *)

Lemma b2q_bounds (b : bool) : (0 <= b2q b <= 1)%Q.
Proof. destruct b; split; discriminate. Qed.

Lemma b2q_one (b : bool) : (1 <= b2q b)%Q -> b = true.
Proof. destruct b; [reflexivity|]. intros H. exfalso. apply H. reflexivity. Qed.

Lemma fraction_bounds (a n : Q) :
  (0 < n)%Q -> (0 <= a <= n)%Q -> (0 <= a / n <= 1)%Q.
Proof.
  intros Hn [H0 H1]. split.
  - apply Qle_shift_div_l; lra.
  - apply Qle_shift_div_r; lra.
Qed.

Ltac name_b2q :=
  repeat match goal with
         | |- context [b2q ?b] =>
             let x := fresh "x" in
             pose proof (b2q_bounds b);
             set (x := b2q b) in *; clearbody x
         end.

Ltac open_progress :=
  unfold progressValue; repeat case_bool_decide; cbv zeta;
  unfold sumQ, guardQ3Rows;
  cbn [fold_left length].

(** X7: for every step id and every state, the value the progress effect
    hands to [onProgressChange] lies between 0 and 1, so the clamp of
    [handleStepProgress] stores it as it is. *)
Theorem progress_in_unit_interval
    (sid : JsString.t) (stepIndex total : Z) (p : Panel) :
  let v := progressValue sid stepIndex total p in
  (0 <= v <= 1)%Q /\ (Qmax 0 (Qmin 1 v) == v)%Q.
Proof.
  cbv zeta.
  assert (H : (0 <= progressValue sid stepIndex total p <= 1)%Q).
  { open_progress.
    - assert (Hc : Z.max 0 (Z.min 2 (subIndex p)) = 0 \/
                   Z.max 0 (Z.min 2 (subIndex p)) = 1 \/
                   Z.max 0 (Z.min 2 (subIndex p)) = 2) by lia.
      destruct Hc as [-> | [-> | ->]]; split; discriminate.
    - name_b2q. apply fraction_bounds; lra.
    - name_b2q. apply fraction_bounds; lra.
    - name_b2q. apply fraction_bounds; lra.
    - name_b2q. apply fraction_bounds; [lra|].
      change (Z.of_nat 8) with 8%Z. change (8 >? 0) with true. cbv iota.
      assert ((0 <= (0 + x1 + x2 + x3 + x4 + x5 + x6 + x7 + x8) / inject_Z 8 <= 1)%Q)
        by (apply fraction_bounds; [reflexivity|]; unfold inject_Z; lra).
      lra.
    - name_b2q. lra.
    - name_b2q. lra. }
  split; [exact H|].
  rewrite Q.min_r by apply H. now rewrite Q.max_r by apply H.
Qed.

Lemma handleStepProgress_bounded (sid : JsString.t) (v : Q) (h : Home) :
  progressBounded h -> progressBounded (handleStepProgress sid v h).
Proof.
  intros Hb sid' c. cbn [handleStepProgress stepProgress].
  destruct (decide (sid = sid')) as [->|Hne].
  - rewrite lookup_insert_eq. intros [= <-]. split.
    + apply Q.le_max_l.
    + apply Q.max_lub; [discriminate | apply Q.le_min_l].
  - rewrite lookup_insert_ne by exact Hne. apply Hb.
Qed.

Lemma runCall_bounded (h : Home) (c : Call) :
  progressBounded h -> progressBounded (runCall h c).
Proof.
  intros Hb. destruct c as [n| | |v|a ms]; cbn [runCall]; try exact Hb.
  unfold reportProgress. destruct (stepAt (currentStep h)) as [s|]; [|exact Hb].
  now apply handleStepProgress_bounded.
Qed.

(** X8: every progress recorded in [Home] lies between 0 and 1 as long
    as no NaN is reported. This holds at the start and is kept by
    [handleStart] and by every sequence of calls the panel makes on [Home]
    ([onNext], [onPrev], [onProgressChange] with any finite number,
    notices, timers): a finite number outside the range is stored as 0 or
    as 1. Of the numbers that are not finite the clamp turns Infinity
    into 1 and -Infinity into 0 and lets NaN through. *)
Theorem step_progress_bounded (h : Home) (cs : list Call) :
  progressBounded initialHome /\
  (progressBounded h ->
   progressBounded (handleStart h) /\ progressBounded (runCalls cs h)) /\
  (PrimFloat.is_nan (Double.clamp01 PrimFloat.nan) = true /\
   PrimFloat.eqb (Double.clamp01 PrimFloat.infinity) PrimFloat.one = true /\
   PrimFloat.eqb (Double.clamp01 PrimFloat.neg_infinity) PrimFloat.zero = true).
Proof.
  split; [|split].
  - intros sid v. cbn [initialHome stepProgress]. now rewrite lookup_empty.
  - intros Hb. split; [exact Hb|].
    unfold runCalls. revert h Hb.
    induction cs as [|c rest IH]; intros h Hb; cbn [fold_left]; [exact Hb|].
    apply IH. now apply runCall_bounded.
  - repeat split.
Qed.

Lemma step_progress_bounded_witness :
  progressBounded (handleStart initialHome) /\
  progressBounded
    (runCalls [CallOnProgressChange 7; CallOnNext; CallOnProgressChange (-3)]
       initialHome).
Proof.
  apply (proj1 (proj2 (step_progress_bounded initialHome
           [CallOnProgressChange 7; CallOnNext; CallOnProgressChange (-3)]))).
  apply (proj1 (step_progress_bounded initialHome [])).
Defined.

(** ** A step shown as complete can be left *)

Lemma fraction_one (a n : Q) : (0 < n)%Q -> (a / n == 1)%Q -> (a == n)%Q.
Proof.
  intros Hn H. rewrite <- (Qmult_div_r a n) by lra. rewrite H. ring.
Qed.

Lemma advanceOrLeave_no_alert (lastSub : Z) (checks : list (bool * JsString.t))
    (p : Panel) (notice : JsString.t) :
  (subIndex p < lastSub -> firstFailing checks = None) ->
  Alert notice ∉ snd (advanceOrLeave lastSub checks p).
Proof.
  intros H. unfold advanceOrLeave. destruct (subIndex p <? lastSub) eqn:E.
  - apply Z.ltb_lt in E. rewrite (H E). cbn. apply not_elem_of_nil.
  - cbn. intros Hin. apply list_elem_of_singleton in Hin. discriminate.
Qed.

Lemma identity_complete (p : Panel) (stepIndex total : Z) :
  (progressValue (lit "identity") stepIndex total p == 1)%Q ->
  firstFailing (identityChecks p) = None.
Proof.
  unfold progressValue. eval_id_tests. cbv zeta. unfold sumQ.
  cbn [fold_left]. intros H. apply fraction_one in H; [|reflexivity].
  unfold identityChecks.
  set (a := identityAnswers p) in *.
  pose proof (b2q_bounds (negb (trimsToEmpty (q1Text a)))).
  pose proof (b2q_bounds (nonEmptyList (q2Selections a)
                          || otherGiven (q2OtherOpen a) (q2OtherText a))).
  pose proof (b2q_bounds (isSet (q3Selection a)
                          || negb (trimsToEmpty (q3OtherText a)))).
  pose proof (b2q_bounds (isSet (q4Selection a)
                          || otherGiven (q4OtherOpen a) (q4OtherText a))).
  pose proof (b2q_bounds (nonEmptyList (q5Selections a)
                          || otherGiven (q5OtherOpen a) (q5OtherText a))).
  assert (B1 : negb (trimsToEmpty (q1Text a)) = true) by (apply b2q_one; lra).
  assert (B2 : nonEmptyList (q2Selections a)
               || otherGiven (q2OtherOpen a) (q2OtherText a) = true)
    by (apply b2q_one; lra).
  assert (B3 : isSet (q3Selection a) || negb (trimsToEmpty (q3OtherText a)) = true)
    by (apply b2q_one; lra).
  assert (B4 : isSet (q4Selection a)
               || otherGiven (q4OtherOpen a) (q4OtherText a) = true)
    by (apply b2q_one; lra).
  destruct (trimsToEmpty (q1Text a)); [discriminate|].
  destruct (nonEmptyList (q2Selections a)),
           (otherGiven (q2OtherOpen a) (q2OtherText a)); try discriminate;
  destruct (isSet (q3Selection a)), (trimsToEmpty (q3OtherText a));
    try discriminate;
  destruct (isSet (q4Selection a)),
           (otherGiven (q4OtherOpen a) (q4OtherText a)); try discriminate;
  cbn [negb andb]; rewrite ?andb_false_r; reflexivity.
Qed.

Lemma example_complete (p : Panel) (stepIndex total : Z) :
  (progressValue (lit "example") stepIndex total p == 1)%Q ->
  firstFailing (exampleChecks p) = None.
Proof.
  unfold progressValue. eval_id_tests. cbv zeta. unfold sumQ.
  cbn [fold_left]. intros H. apply fraction_one in H; [|reflexivity].
  unfold exampleChecks.
  set (a := exampleAnswers p) in *.
  pose proof (b2q_bounds (isSet (exQ1Selection a)
                          || otherGiven (exQ1OtherOpen a) (exQ1OtherText a))).
  pose proof (b2q_bounds (isSet (exQ2Selection a)
                          || otherGiven (exQ2OtherOpen a) (exQ2OtherText a))).
  pose proof (b2q_bounds (negb (trimsToEmpty (exQ3Text a)))).
  assert (B1 : isSet (exQ1Selection a)
               || otherGiven (exQ1OtherOpen a) (exQ1OtherText a) = true)
    by (apply b2q_one; lra).
  assert (B2 : isSet (exQ2Selection a)
               || otherGiven (exQ2OtherOpen a) (exQ2OtherText a) = true)
    by (apply b2q_one; lra).
  assert (B3 : negb (trimsToEmpty (exQ3Text a)) = true) by (apply b2q_one; lra).
  destruct (trimsToEmpty (exQ3Text a)); [discriminate|].
  destruct (isSet (exQ1Selection a)),
           (otherGiven (exQ1OtherOpen a) (exQ1OtherText a)); try discriminate;
  destruct (isSet (exQ2Selection a)),
           (otherGiven (exQ2OtherOpen a) (exQ2OtherText a)); try discriminate;
  cbn [negb andb]; rewrite ?andb_false_r; reflexivity.
Qed.

Lemma method_complete (p : Panel) (stepIndex total : Z) :
  (progressValue (lit "method") stepIndex total p == 1)%Q ->
  firstFailing (methodChecks p) = None.
Proof.
  unfold progressValue. eval_id_tests. cbv zeta. unfold sumQ.
  cbn [fold_left]. intros H. apply fraction_one in H; [|reflexivity].
  unfold methodChecks.
  set (a := methodAnswers p) in *.
  pose proof (b2q_bounds (isSet (mQ1Selection a)
                          || otherGiven (mQ1OtherOpen a) (mQ1OtherText a))).
  pose proof (b2q_bounds (isSet (mQ2Selection a)
                          || otherGiven (mQ2OtherOpen a) (mQ2OtherText a))).
  pose proof (b2q_bounds (isSet (mQ3Selection a)
                          || otherGiven (mQ3OtherOpen a) (mQ3OtherText a))).
  assert (B1 : isSet (mQ1Selection a)
               || otherGiven (mQ1OtherOpen a) (mQ1OtherText a) = true)
    by (apply b2q_one; lra).
  assert (B2 : isSet (mQ2Selection a)
               || otherGiven (mQ2OtherOpen a) (mQ2OtherText a) = true)
    by (apply b2q_one; lra).
  assert (B3 : isSet (mQ3Selection a)
               || otherGiven (mQ3OtherOpen a) (mQ3OtherText a) = true)
    by (apply b2q_one; lra).
  destruct (isSet (mQ1Selection a)),
           (otherGiven (mQ1OtherOpen a) (mQ1OtherText a)); try discriminate;
  destruct (isSet (mQ2Selection a)),
           (otherGiven (mQ2OtherOpen a) (mQ2OtherText a)); try discriminate;
  destruct (isSet (mQ3Selection a)),
           (otherGiven (mQ3OtherOpen a) (mQ3OtherText a)); try discriminate;
  cbn [negb andb]; rewrite ?andb_false_r; reflexivity.
Qed.

Lemma guardrails_complete (p : Panel) (stepIndex total : Z) :
  (progressValue (lit "guardrails") stepIndex total p == 1)%Q ->
  firstFailing (guardrailsChecks p) = None.
Proof.
  unfold progressValue. eval_id_tests. cbv zeta. unfold guardQ3Rows.
  cbn [fold_left length].
  change (Z.of_nat 8) with 8%Z. change (8 >? 0) with true. cbv iota.
  intros H. apply fraction_one in H; [|reflexivity].
  unfold guardrailsChecks, missingRow, guardQ3Rows.
  set (a := guardrailsAnswers p) in *.
  set (m := gQ3Map a) in *.
  pose proof (b2q_bounds (nonEmptyList (gQ1Selections a)
                          || otherGiven (gQ1OtherOpen a) (gQ1OtherText a))).
  pose proof (b2q_bounds (isSet (gQ2Selection a)
                          || otherGiven (gQ2OtherOpen a) (gQ2OtherText a))).
  pose proof (b2q_bounds (rowSet m (lit "Check ins"))).
  pose proof (b2q_bounds (rowSet m (lit "Homework"))).
  pose proof (b2q_bounds (rowSet m (lit "Goal reminders"))).
  pose proof (b2q_bounds (rowSet m (lit "Reflection prompts"))).
  pose proof (b2q_bounds (rowSet m (lit "Celebrate progress"))).
  pose proof (b2q_bounds (rowSet m (lit "Suggest resources"))).
  pose proof (b2q_bounds (rowSet m (lit "Handle emotions"))).
  pose proof (b2q_bounds (rowSet m (lit "Scheduling"))).
  match type of H with
  | (_ + _ + ?s / _ == _)%Q =>
      assert (Hrows : (0 <= s / inject_Z 8 <= 1)%Q)
        by (apply fraction_bounds; [reflexivity|]; unfold inject_Z; lra);
      assert (Hs : (s / inject_Z 8 == 1)%Q) by lra;
      apply fraction_one in Hs; [|reflexivity]; unfold inject_Z in Hs
  end.
  assert (B1 : nonEmptyList (gQ1Selections a)
               || otherGiven (gQ1OtherOpen a) (gQ1OtherText a) = true)
    by (apply b2q_one; lra).
  assert (B2 : isSet (gQ2Selection a)
               || otherGiven (gQ2OtherOpen a) (gQ2OtherText a) = true)
    by (apply b2q_one; lra).
  assert (R1 : rowSet m (lit "Check ins") = true) by (apply b2q_one; lra).
  assert (R2 : rowSet m (lit "Homework") = true) by (apply b2q_one; lra).
  assert (R3 : rowSet m (lit "Goal reminders") = true) by (apply b2q_one; lra).
  assert (R4 : rowSet m (lit "Reflection prompts") = true) by (apply b2q_one; lra).
  assert (R5 : rowSet m (lit "Celebrate progress") = true) by (apply b2q_one; lra).
  assert (R6 : rowSet m (lit "Suggest resources") = true) by (apply b2q_one; lra).
  assert (R7 : rowSet m (lit "Handle emotions") = true) by (apply b2q_one; lra).
  assert (R8 : rowSet m (lit "Scheduling") = true) by (apply b2q_one; lra).
  cbn [List.find]. rewrite R1, R2, R3, R4, R5, R6, R7, R8. cbn [negb truthy].
  destruct (nonEmptyList (gQ1Selections a)),
           (otherGiven (gQ1OtherOpen a) (gQ1OtherText a)); try discriminate;
  destruct (isSet (gQ2Selection a)),
           (otherGiven (gQ2OtherOpen a) (gQ2OtherText a)); try discriminate;
  cbn [negb andb]; rewrite ?andb_false_r; reflexivity.
Qed.

(** X9: a step whose progress value is 1 can always be left: [goNext]
    raises no notice, at any sub-index, when the progress effect reports 1
    for the step and state; the same holds for the "Next" button of the
    method step, which [goNext] does not guard. *)
Theorem complete_step_never_blocked
    (sid : JsString.t) (stepIndex total : Z) (p : Panel) :
  (progressValue sid stepIndex total p == 1)%Q ->
  (forall notice, Alert notice ∉ snd (goNext sid p)) /\
  (sid = lit "method" -> forall notice, Alert notice ∉ snd (methodNext p)).
Proof.
  intros H. split.
  - intros notice. unfold goNext.
    repeat case_bool_decide; subst;
      try (apply advanceOrLeave_no_alert; intros Hs).
    + (* language *)
      revert H. unfold progressValue. eval_id_tests. cbv zeta. intros H.
      assert (Hc : Z.max 0 (Z.min 2 (subIndex p)) = 0 \/
                   Z.max 0 (Z.min 2 (subIndex p)) = 1) by lia.
      destruct Hc as [Hc | Hc]; rewrite Hc in H; vm_compute in H; discriminate.
    + eapply identity_complete; eassumption.
    + eapply example_complete; eassumption.
    + eapply guardrails_complete; eassumption.
    + revert H. unfold progressValue. eval_id_tests. cbv zeta.
      unfold previewChecks, firstFailing.
      destruct (previewRating (previewControls p) >? 0) eqn:E; intros H.
      * assert ((previewRating (previewControls p) <=? 0) = false) as ->
          by (apply Z.leb_gt; lia).
        rewrite andb_false_r. reflexivity.
      * vm_compute in H. discriminate.
    + cbn. intros Hin. apply list_elem_of_singleton in Hin. discriminate.
  - intros -> notice. unfold methodNext. rewrite advanceCapped_eq.
    apply advanceOrLeave_no_alert. intros _.
    eapply method_complete; eassumption.
Qed.

Lemma complete_step_never_blocked_witness :
  (forall notice, Alert notice ∉ snd (goNext (lit "identity") identityAnswered)) /\
  (lit "identity" = lit "method" ->
   forall notice, Alert notice ∉ snd (methodNext identityAnswered)).
Proof.
  apply (complete_step_never_blocked (lit "identity") 1 6 identityAnswered).
  vm_compute. reflexivity.
Defined.

(** ** Moving between steps *)

Lemma stepAt_Some (i : Z) (s : Step) :
  stepAt i = Some s ->
  (i = 0 /\ id s = lit "language") \/ (i = 1 /\ id s = lit "identity") \/
  (i = 2 /\ id s = lit "method") \/ (i = 3 /\ id s = lit "example") \/
  (i = 4 /\ id s = lit "guardrails") \/ (i = 5 /\ id s = lit "preview").
Proof.
  unfold stepAt. destruct (i <? 0) eqn:E; [discriminate|].
  apply Z.ltb_ge in E. intros H.
  assert (Hi : (Z.to_nat i < 6)%nat).
  { apply lookup_lt_Some in H. exact H. }
  assert (Hc : i = 0 \/ i = 1 \/ i = 2 \/ i = 3 \/ i = 4 \/ i = 5) by lia.
  destruct Hc as [-> | [-> | [-> | [-> | [-> | ->]]]]];
    cbn in H; injection H as <-; tauto.
Qed.

Lemma stepAt_in_range (i : Z) : 0 <= i <= 5 -> is_Some (stepAt i).
Proof.
  intros H.
  assert (Hc : i = 0 \/ i = 1 \/ i = 2 \/ i = 3 \/ i = 4 \/ i = 5) by lia.
  destruct Hc as [-> | [-> | [-> | [-> | [-> | ->]]]]]; eexists; reflexivity.
Qed.

(** X10: [onNext] and [onPrev] keep the index of the current step among
    the six steps, so the panel is always given a step; they stop at the
    last and at the first step, and away from those ends each undoes the
    other. *)
Theorem step_index_stays_in_range (h : Home) :
  0 <= currentStep h <= 5 ->
  (0 <= currentStep (onNext h) <= 5 /\ is_Some (currentStepId (onNext h))) /\
  (0 <= currentStep (onPrev h) <= 5 /\ is_Some (currentStepId (onPrev h))) /\
  (currentStep h = 5 -> onNext h = h) /\
  (currentStep h = 0 -> onPrev h = h) /\
  (currentStep h < 5 -> onPrev (onNext h) = h) /\
  (0 < currentStep h -> onNext (onPrev h) = h).
Proof.
  intros H. unfold onNext, onPrev, setCurrentStep, currentStepId.
  cbn [currentStep showStepper stepProgress length steps Z.of_nat].
  change (Z.of_nat 6 - 1) with 5.
  assert (Hs : forall i, 0 <= i <= 5 -> is_Some (id <$> stepAt i)).
  { intros i Hi. destruct (stepAt_in_range i Hi) as [s ->]. eexists; reflexivity. }
  repeat split; try lia; try (apply Hs; lia); intros Hc; destruct h as [a c m];
    cbn [currentStep] in *; f_equal; lia.
Qed.

Lemma step_index_stays_in_range_witness :
  onPrev (onNext homeLanguageDone) = homeLanguageDone.
Proof.
  apply (step_index_stays_in_range homeLanguageDone); cbn; lia.
Defined.

Lemma reportProgress_current (h : Home) (v : Q) (s : Step) :
  stepAt (currentStep h) = Some s ->
  reportProgress v h = handleStepProgress (id s) v h.
Proof. intros Hs. unfold reportProgress. now rewrite Hs. Qed.

Lemma onStepIdChange_progress (h : Home) (p : Panel) (s : Step) :
  stepAt (currentStep h) = Some s ->
  stepProgress (fst (onStepIdChange h p)) !! id s
  = Some (Qmax 0 (Qmin 1
      (progressValue (id s) (currentStep h) (Z.of_nat (length steps))
         (showIntroEffect (resetEffect p))))) /\
  currentStep (fst (onStepIdChange h p)) = currentStep h.
Proof.
  intros Hs. unfold onStepIdChange, currentStepId. rewrite Hs.
  cbn [fmap option_fmap option_map fst]. unfold progressEffect, runCalls.
  cbn [fold_left runCall].
  rewrite (reportProgress_current h _ s Hs).
  rewrite (reportProgress_current _ _ s) by exact Hs.
  cbn [stepProgress currentStep handleStepProgress].
  split; [apply lookup_insert_eq|reflexivity].
Qed.

(** X11: on entering a step, the progress recorded for it is 0 for the
    language, identity, method, example and guardrails steps, and 1 for
    the preview step, whose rating is reset to 5; so the stepper marks the
    step just entered as completed exactly when it is the preview step. *)
Theorem entered_step_progress (h : Home) (p : Panel) (s : Step) :
  stepAt (currentStep h) = Some s ->
  let h' := fst (onStepIdChange h p) in
  exists v,
    stepProgress h' !! id s = Some v /\
    (id s = lit "preview" -> (v == 1)%Q) /\
    (id s <> lit "preview" -> (v == 0)%Q) /\
    stepCompleted h' (currentStep h') s = bool_decide (id s = lit "preview").
Proof.
  intros Hs h'. unfold h'.
  destruct (onStepIdChange_progress h p s Hs) as [E Ec].
  eexists. split; [exact E|].
  unfold stepCompleted. rewrite E, Ec, Z.ltb_irrefl, orb_false_r.
  cbn [default].
  destruct (stepAt_Some _ _ Hs) as
    [[_ ->] | [[_ ->] | [[_ ->] | [[_ ->] | [[_ ->] | [_ ->]]]]]];
    repeat split; intros; try congruence;
    try (exfalso; vm_compute in H; discriminate); reflexivity.
Qed.

Lemma entered_step_progress_witness :
  let h := onNext homeLanguageDone in
  let h' := fst (onStepIdChange h languageDone) in
  let s := {| id := lit "identity"; label := lit "Identity & Tone" |} in
  exists v,
    stepProgress h' !! id s = Some v /\
    (id s = lit "preview" -> (v == 1)%Q) /\
    (id s <> lit "preview" -> (v == 0)%Q) /\
    stepCompleted h' (currentStep h') s = bool_decide (id s = lit "preview").
Proof.
  apply (entered_step_progress (onNext homeLanguageDone) languageDone
           {| id := lit "identity"; label := lit "Identity & Tone" |}).
  reflexivity.
Defined.

(** ** What a session on one screen can reach *)

Lemma runScreen_app {C : Type}
    (screen : C -> Panel -> option (Panel * list Call))
    (cs : list C) (c : C) (p : Panel) :
  runScreen screen (cs ++ [c]) p
  = match screen c (fst (runScreen screen cs p)) with
    | Some r => (fst r, snd (runScreen screen cs p) ++ snd r)
    | None => runScreen screen cs p
    end.
Proof. unfold runScreen. rewrite fold_left_app. reflexivity. Qed.

(** An invariant of the state and of the calls collected so far. *)
Lemma runScreen_invariant {C : Type}
    (screen : C -> Panel -> option (Panel * list Call))
    (J : Panel -> list Call -> Prop) (p0 : Panel) :
  J p0 [] ->
  (forall c p calls r, J p calls -> screen c p = Some r ->
     J (fst r) (calls ++ snd r)) ->
  forall cs, J (fst (runScreen screen cs p0)) (snd (runScreen screen cs p0)).
Proof.
  intros H0 Hstep cs. induction cs as [|c cs IH] using rev_ind.
  - exact H0.
  - rewrite runScreen_app.
    destruct (screen c (fst (runScreen screen cs p0))) as [r|] eqn:E.
    + cbn [fst snd]. eapply Hstep; eassumption.
    + exact IH.
Qed.

Lemma langName_truthy (l : Lang) : truthy (Some (langName l)) = true.
Proof. destruct l; reflexivity. Qed.

Lemma languageScreen_step (c : LanguageControl) (p : Panel)
    (r : Panel * list Call) :
  languageInvariant p -> languageScreen c p = Some r ->
  languageInvariant (fst r) /\
  (snd r = [] \/ snd r = [CallOnNext] /\ subIndex p = 2) /\
  (subIndex p = 2 -> subIndex (fst r) = 2).
Proof.
  unfold languageInvariant, languageScreen. intros (Hr & H1 & H2) E.
  destruct (showIntro p).
  - destruct c; try discriminate. injection E as <-.
    cbn [fst snd subIndex languageAnswers setShowIntro]. auto.
  - destruct c; try discriminate.
    + destruct (subIndex p =? 0) eqn:E0; [|discriminate].
      apply Z.eqb_eq in E0. injection E as <-.
      cbn [fst snd subIndex languageAnswers setOnboardingLang setLanguageAnswers
           onboardingLang twinLang].
      rewrite langName_truthy. repeat split; auto; lia.
    + destruct (subIndex p =? 1) eqn:E1; [|discriminate].
      apply Z.eqb_eq in E1. injection E as <-.
      cbn [fst snd subIndex languageAnswers setTwinLang setLanguageAnswers
           onboardingLang twinLang].
      rewrite langName_truthy. repeat split; auto; lia.
    + destruct (subIndex p =? 1) eqn:E1; [|discriminate].
      apply Z.eqb_eq in E1. injection E as <-.
      unfold previousButton.
      cbn [fst snd subIndex languageAnswers setSubIndex].
      repeat split; auto; lia.
    + unfold languageNextDisabled, languageNext in E.
      destruct (subIndex p =? 0) eqn:E0, (subIndex p =? 1) eqn:E1;
        cbn [orb andb] in E;
        try (apply Z.eqb_eq in E0); try (apply Z.eqb_eq in E1);
        try discriminate; try lia.
      * destruct (truthy (onboardingLang (languageAnswers p))) eqn:T;
          cbn [negb orb] in E; [|discriminate].
        injection E as <-.
        cbn [fst snd subIndex languageAnswers setSubIndex].
        repeat split; auto; try lia.
      * destruct (truthy (twinLang (languageAnswers p))) eqn:T;
          cbn [negb orb] in E; [|discriminate].
        injection E as <-.
        cbn [fst snd subIndex languageAnswers setSubIndex].
        repeat split; auto; try lia; intros _; apply H1; lia.
    + destruct (subIndex p =? 2) eqn:E2; [|discriminate].
      injection E as <-.
      cbn [fst snd subIndex languageAnswers setShowIntro]. auto.
    + destruct (subIndex p =? 2) eqn:E2; [|discriminate].
      apply Z.eqb_eq in E2. injection E as <-.
      unfold goNext. eval_id_tests. unfold advanceOrLeave.
      rewrite E2. cbn [Z.ltb Z.compare Pos.compare Pos.compare_cont fst snd].
      auto 6.
Qed.

(** X12: on the language step, from the state the step is entered with,
    no sequence of clicks leads outside the sub-indices 0, 1, 2; the second
    question is reached only with the onboarding language chosen and the
    review screen only with both languages chosen; no notice is raised; and
    once the parent's [onNext] has been called both languages are chosen. *)
Theorem language_screen_reach (p0 : Panel) (cs : list LanguageControl) :
  let r := runScreen languageScreen cs (enterStep p0) in
  languageInvariant (fst r) /\
  Forall (fun c => c = CallOnNext) (snd r) /\
  (snd r <> [] ->
   truthy (onboardingLang (languageAnswers (fst r))) = true /\
   truthy (twinLang (languageAnswers (fst r))) = true).
Proof.
  cbv zeta.
  set (J := fun (p : Panel) (calls : list Call) =>
    languageInvariant p /\ Forall (fun c => c = CallOnNext) calls /\
    (calls <> [] -> subIndex p = 2)).
  assert (H : J (fst (runScreen languageScreen cs (enterStep p0)))
                (snd (runScreen languageScreen cs (enterStep p0)))).
  { apply runScreen_invariant.
    - unfold J, languageInvariant, enterStep. cbn. repeat split; try lia.
      + constructor.
      + congruence.
    - intros c p calls r (HI & HF & HC) E.
      destruct (languageScreen_step c p r HI E) as (HI' & Hcalls & Hkeep).
      unfold J. split; [exact HI'|].
      destruct Hcalls as [-> | (-> & Hs)].
      + rewrite app_nil_r. split; [exact HF|]. auto.
      + split; [|auto].
        apply Forall_app. split; [exact HF|]. repeat constructor. }
  destruct H as (HI & HF & HC).
  split; [exact HI|]. split; [exact HF|].
  intros Hne. specialize (HC Hne). destruct HI as (_ & H1 & H2).
  split; [apply H1 | apply H2]; lia.
Qed.

Lemma language_screen_reach_witness :
  truthy (onboardingLang (languageAnswers
    (fst (runScreen languageScreen languageClicks (enterStep initialPanel)))))
  = true /\
  truthy (twinLang (languageAnswers
    (fst (runScreen languageScreen languageClicks (enterStep initialPanel)))))
  = true.
Proof.
  apply (proj2 (proj2 (language_screen_reach initialPanel languageClicks))).
  vm_compute. discriminate.
Defined.

Lemma toggleTone_keeps (t : JsString.t) (s opts : list JsString.t) :
  (length s <= 2)%nat -> NoDup s -> (forall x, x ∈ s -> x ∈ opts) ->
  t ∈ opts ->
  (length (toggleTone t s) <= 2)%nat /\ NoDup (toggleTone t s) /\
  (forall x, x ∈ toggleTone t s -> x ∈ opts).
Proof.
  intros Hlen Hnd Hsub Ht. unfold toggleTone.
  destruct (includes t s) eqn:Hin.
  - pose proof (without_length t s). repeat split; [lia| |].
    + now apply without_NoDup.
    + intros x Hx. apply elem_of_without in Hx. apply Hsub, Hx.
  - apply includes_false in Hin.
    destruct (2 <=? length s)%nat eqn:Hcap; [auto|].
    apply Nat.leb_gt in Hcap. repeat split.
    + rewrite length_app. cbn. lia.
    + apply NoDup_app. repeat split; auto.
      * intros x Hx Hx'. apply list_elem_of_singleton in Hx'. congruence.
      * apply NoDup_singleton.
    + intros x Hx. apply elem_of_app in Hx. destruct Hx as [Hx|Hx]; [auto|].
      apply list_elem_of_singleton in Hx. now subst.
Qed.

Lemma identityChecks_pass (p : Panel) :
  firstFailing (identityChecks p) = None ->
  let a := identityAnswers p in
  (subIndex p = 0 -> q1Answered a = true) /\
  (subIndex p = 1 -> q2Answered a = true) /\
  (subIndex p = 2 -> q3Answered a = true) /\
  (subIndex p = 3 -> q4Answered a = true).
Proof.
  unfold identityChecks, firstFailing, q1Answered, q2Answered, q3Answered,
    q4Answered. cbv zeta. intros H.
  repeat split; intros Hs; rewrite Hs in H;
    cbn [Z.eqb Pos.eqb andb List.find fst] in H.
  - destruct (trimsToEmpty (q1Text (identityAnswers p))); [discriminate|reflexivity].
  - destruct (nonEmptyList (q2Selections (identityAnswers p))),
             (otherGiven (q2OtherOpen (identityAnswers p))
                         (q2OtherText (identityAnswers p)));
      try reflexivity; discriminate.
  - destruct (isSet (q3Selection (identityAnswers p))),
             (trimsToEmpty (q3OtherText (identityAnswers p)));
      try reflexivity; discriminate.
  - destruct (isSet (q4Selection (identityAnswers p))),
             (otherGiven (q4OtherOpen (identityAnswers p))
                         (q4OtherText (identityAnswers p)));
      try reflexivity; discriminate.
Qed.

Lemma identityInput_Some (k : Z) (shown : bool) (a' : IdentityState)
    (p : Panel) (r : Panel * list Call) :
  identityInput k shown a' p = Some r ->
  subIndex p = k /\ shown = true /\ r = (setIdentityAnswers a' p, []).
Proof.
  unfold identityInput. destruct (subIndex p =? k) eqn:E; [|discriminate].
  apply Z.eqb_eq in E. destruct shown; [|discriminate].
  intros H. injection H as <-. auto.
Qed.

Ltac identity_input E :=
  apply identityInput_Some in E; destruct E as (Hk & Hshown & ->);
  cbn [fst snd subIndex identityAnswers setIdentityAnswers];
  unfold q1Answered, q2Answered, q3Answered, q4Answered in *;
  cbn [setQ1 setQ2 setQ3 setQ4 setQ5 q1Text q2Selections q2OtherOpen q2OtherText
       q3Selection q3OtherOpen q3OtherText q4Selection q4OtherOpen q4OtherText
       q5Selections q5OtherOpen q5OtherText].

Lemma identityScreen_step (c : IdentityControl) (p : Panel)
    (r : Panel * list Call) :
  identityInvariant p -> identityScreen c p = Some r ->
  identityInvariant (fst r) /\
  Forall alertOrNext (snd r) /\
  (CallOnNext ∈ snd r -> subIndex p = 5 /\ fst r = p).
Proof.
  unfold identityInvariant, identityScreen. cbv zeta.
  intros (Hr & H1 & H2 & H3 & H4 & HL & HN & HO) E.
  assert (Hnil : Forall alertOrNext [] /\
                 (CallOnNext ∈ ([] : list Call) -> subIndex p = 5 /\ fst r = p)).
  { split; [constructor|]. intros Hin. now apply not_elem_of_nil in Hin. }
  destruct (showIntro p).
  { destruct c; cbv beta iota in E; try discriminate. injection E as <-.
    cbn [fst snd subIndex identityAnswers setShowIntro].
    split; [auto 10|]. split; [constructor|].
    intros Hin. now apply not_elem_of_nil in Hin. }
  destruct c; cbv beta iota in E; try discriminate.
  all: try solve
    [ identity_input E; split;
      [ repeat split; auto; try lia; intros; first [lia | auto]
      | split; [constructor | intros Hin; now apply not_elem_of_nil in Hin] ] ].
  - (* a tone word *)
    identity_input E. apply includes_true in Hshown.
    split; [|split; [constructor | intros Hin; now apply not_elem_of_nil in Hin]].
    destruct (toggleTone_keeps t (q2Selections (identityAnswers p)) toneOptions
                HL HN HO Hshown) as (L' & N' & O').
    repeat split; auto; try lia; intros; first [lia | auto].
  - (* Previous *)
    destruct (subIndex p =? 0) eqn:E0; [discriminate|].
    apply Z.eqb_neq in E0. injection E as <-. unfold previousButton.
    cbn [fst snd subIndex identityAnswers setSubIndex].
    split; [|split; [constructor | intros Hin; now apply not_elem_of_nil in Hin]].
    repeat split; auto; try lia; intros; first [apply H1 | apply H2 | apply H3 | apply H4]; lia.
  - (* Next *)
    injection E as <-. unfold identityNext. rewrite advanceCapped_eq.
    unfold advanceOrLeave. destruct (subIndex p <? 5) eqn:E5.
    + apply Z.ltb_lt in E5.
      destruct (firstFailing (identityChecks p)) as [n|] eqn:EF.
      * cbn [fst snd]. split; [auto 10|]. split.
        -- apply Forall_cons; split; [right; eauto | constructor].
        -- intros Hin. apply list_elem_of_singleton in Hin. discriminate.
      * destruct (identityChecks_pass p EF) as (P1 & P2 & P3 & P4).
        cbn [fst snd subIndex identityAnswers setSubIndex].
        split; [|split; [constructor | intros Hin; now apply not_elem_of_nil in Hin]].
        repeat split; auto; try lia; intros Hs.
        -- destruct (Z.eq_dec (subIndex p) 0); [auto | apply H1; lia].
        -- destruct (Z.eq_dec (subIndex p) 1); [auto | apply H2; lia].
        -- destruct (Z.eq_dec (subIndex p) 2); [auto | apply H3; lia].
        -- destruct (Z.eq_dec (subIndex p) 3); [auto | apply H4; lia].
    + apply Z.ltb_ge in E5. cbn [fst snd]. split; [auto 10|]. split.
      * apply Forall_cons; split; [now left | constructor].
      * intros _. split; [lia | reflexivity].
  - (* Revisit *)
    destruct (subIndex p =? 5) eqn:E5; [|discriminate]. injection E as <-.
    cbn [fst snd subIndex identityAnswers setSubIndex setShowIntro].
    split; [|split; [constructor | intros Hin; now apply not_elem_of_nil in Hin]].
    repeat split; auto; lia.
  - (* Proceed *)
    destruct (subIndex p =? 5) eqn:E5; [|discriminate].
    apply Z.eqb_eq in E5. injection E as <-.
    rewrite goNext_identity. unfold advanceOrLeave. rewrite E5.
    cbn [Z.ltb Z.compare Pos.compare Pos.compare_cont fst snd].
    split; [auto 10|]. split.
    + apply Forall_cons; split; [now left | constructor].
    + intros _. split; [lia | reflexivity].
Qed.

(** X13: on the identity step, from the state the step is entered with,
    every sequence of inputs and clicks keeps the sub-index among 0..5 and
    keeps each question before the one shown answered (Q1 to Q4; Q5 has no
    guard), with at most two distinct tone words, all taken from the
    options; the calls made are notices and [onNext]; and a further click
    that calls the parent's [onNext] finds the feedback screen with Q1 to
    Q4 answered. *)
Theorem identity_screen_reach
    (p0 : Panel) (cs : list IdentityControl) (c : IdentityControl)
    (r : Panel * list Call) :
  let run := runScreen identityScreen cs (enterStep p0) in
  let a := identityAnswers (fst run) in
  identityInvariant (fst run) /\
  Forall alertOrNext (snd run) /\
  (identityScreen c (fst run) = Some r -> CallOnNext ∈ snd r ->
   subIndex (fst run) = 5 /\
   q1Answered a = true /\ q2Answered a = true /\
   q3Answered a = true /\ q4Answered a = true).
Proof.
  cbv zeta.
  assert (H : identityInvariant (fst (runScreen identityScreen cs (enterStep p0)))
              /\ Forall alertOrNext (snd (runScreen identityScreen cs (enterStep p0)))).
  { apply (runScreen_invariant identityScreen
             (fun p calls => identityInvariant p /\ Forall alertOrNext calls)).
    - split; [|constructor]. unfold identityInvariant, enterStep. cbn.
      repeat split; try lia; try apply NoDup_nil_2.
      intros x Hx. now apply not_elem_of_nil in Hx.
    - intros c' p calls r' [HI HF] E.
      destruct (identityScreen_step c' p r' HI E) as (HI' & HF' & _).
      split; [exact HI'|]. apply Forall_app. auto. }
  destruct H as [HI HF]. split; [exact HI|]. split; [exact HF|].
  intros E Hin.
  destruct (identityScreen_step c _ r HI E) as (_ & _ & Hc).
  destruct (Hc Hin) as [Hs _]. split; [exact Hs|].
  destruct HI as (_ & H1 & H2 & H3 & H4 & _).
  repeat split; [apply H1 | apply H2 | apply H3 | apply H4]; lia.
Qed.

Lemma identity_screen_reach_witness :
  subIndex (fst (runScreen identityScreen identityClicks (enterStep initialPanel)))
  = 5 /\
  q1Answered (identityAnswers
    (fst (runScreen identityScreen identityClicks (enterStep initialPanel))))
  = true /\
  q2Answered (identityAnswers
    (fst (runScreen identityScreen identityClicks (enterStep initialPanel))))
  = true /\
  q3Answered (identityAnswers
    (fst (runScreen identityScreen identityClicks (enterStep initialPanel))))
  = true /\
  q4Answered (identityAnswers
    (fst (runScreen identityScreen identityClicks (enterStep initialPanel))))
  = true.
Proof.
  apply (proj2 (proj2 (identity_screen_reach initialPanel identityClicks IProceed
           (goNext (lit "identity")
              (fst (runScreen identityScreen identityClicks
                      (enterStep initialPanel))))))).
  - vm_compute. reflexivity.
  - vm_compute. left.
Defined.

(** ** The preview step *)

Lemma inSliderRange_true (v : Z) : inSliderRange v = true <-> 1 <= v <= 10.
Proof. unfold inSliderRange. rewrite andb_true_iff, !Z.leb_le. tauto. Qed.

Lemma previewInvariant_controls (p p' : Panel) :
  previewControls p' = previewControls p ->
  previewInvariant p -> previewInvariant p'.
Proof. unfold previewInvariant. now intros ->. Qed.

Lemma commit_invariant (p : Panel) :
  previewInvariant p -> previewInvariant (fst (commitPreviewFromSliders p)).
Proof.
  unfold previewInvariant, commitPreviewFromSliders. cbv zeta.
  cbn [fst previewControls setPreviewControls previewRating directness warmth
       challenge commDirectness commWarmth commChallenge previewMessage].
  intros (HR & HL & _ & _). auto.
Qed.

Ltac preview_cells :=
  unfold previewInvariant, setPreviewRating, setShowAdvanced, setSliders,
    onAccept, onTweak, onSharpen, onThumb in *;
  cbn [fst snd subIndex previewControls setPreviewControls setSubIndex
       previewRating directness warmth challenge commDirectness commWarmth
       commChallenge previewMessage] in *.

Lemma previewScreen_step (c : PreviewControl) (p : Panel)
    (r : Panel * list Call) :
  0 <= subIndex p <= 2 -> previewInvariant p ->
  previewScreen c p = Some r ->
  0 <= subIndex (fst r) <= 2 /\ previewInvariant (fst r) /\
  Forall (fun call => call <> Alert (lit "Please rate the preview to continue"))
         (snd r).
Proof.
  intros Hs HI E. unfold previewScreen in E. cbv zeta in E.
  assert (Hnil : Forall (fun call : Call =>
             call <> Alert (lit "Please rate the preview to continue")) [])
    by constructor.
  destruct (showIntro p).
  { destruct c; cbv beta iota in E; try discriminate. injection E as <-.
    cbn [fst snd subIndex setShowIntro]. auto. }
  destruct c; cbv beta iota in E; try discriminate.
  - (* rating *)
    destruct (subIndex p <? 1); cbn [andb] in E; [|discriminate].
    destruct (inSliderRange v) eqn:Ev; [|discriminate].
    apply inSliderRange_true in Ev. injection E as <-.
    preview_cells. repeat split; auto; try lia; tauto.
  - destruct (subIndex p <? 1); [|discriminate]. injection E as <-.
    preview_cells. repeat split; auto; try lia; tauto.
  - destruct ((subIndex p <? 1) && showAdvancedPreviewControls (previewControls p));
      cbn [andb] in E; [|discriminate].
    destruct (inSliderRange v) eqn:Ev; [|discriminate].
    apply inSliderRange_true in Ev. injection E as <-.
    preview_cells. repeat split; auto; try lia; tauto.
  - destruct ((subIndex p <? 1) && showAdvancedPreviewControls (previewControls p));
      cbn [andb] in E; [|discriminate].
    destruct (inSliderRange v) eqn:Ev; [|discriminate].
    apply inSliderRange_true in Ev. injection E as <-.
    preview_cells. repeat split; auto; try lia; tauto.
  - destruct ((subIndex p <? 1) && showAdvancedPreviewControls (previewControls p));
      cbn [andb] in E; [|discriminate].
    destruct (inSliderRange v) eqn:Ev; [|discriminate].
    apply inSliderRange_true in Ev. injection E as <-.
    preview_cells. repeat split; auto; try lia; tauto.
  - (* release of a tone slider *)
    destruct ((subIndex p <? 1) && showAdvancedPreviewControls (previewControls p));
      [|discriminate].
    injection E as <-. split; [exact Hs|]. split; [now apply commit_invariant|].
    cbn [snd commitPreviewFromSliders].
    apply Forall_cons; split; [discriminate|].
    apply Forall_cons; split; [discriminate|constructor].
  - (* Next *)
    destruct (subIndex p =? 0) eqn:E0; [|discriminate].
    apply Z.eqb_eq in E0. injection E as <-. unfold previewNext.
    rewrite E0. cbn [Z.ltb Z.compare].
    assert ((previewRating (previewControls p) <=? 0) = false) as ->
      by (apply Z.leb_gt; unfold previewInvariant in HI; lia).
    cbn [fst snd subIndex setSubIndex].
    split; [lia|]. split; [|exact Hnil].
    now apply (previewInvariant_controls p).
  - (* Accept *)
    destruct (subIndex p =? 1); [|discriminate]. injection E as <-.
    preview_cells. repeat split; auto; try lia; tauto.
  - (* Tweak *)
    unfold clickTweak in E.
    destruct (tweakButtonRendered (lit "preview") p);
      cbn [mbind option_bind] in E; [|discriminate].
    injection E as <-.
    preview_cells. repeat split; auto; try lia; tauto.
  - (* Sharpen *)
    destruct (subIndex p =? 1); [|discriminate]. injection E as <-.
    preview_cells. repeat split; auto; try lia; try tauto.
  - (* thumbs *)
    destruct (subIndex p =? 1); [|discriminate]. injection E as <-.
    preview_cells. repeat split; auto; try lia; tauto.
  - (* Finish *)
    destruct (subIndex p =? 2); [|discriminate]. injection E as <-.
    cbn [fst snd]. split; [exact Hs|]. split; [exact HI|].
    apply Forall_cons; split; [discriminate|constructor].
Qed.

Lemma enterStep_previewInvariant (p : Panel) :
  previewInvariant p -> previewInvariant (enterStep p).
Proof.
  unfold previewInvariant, enterStep. cbn. intros (_ & _ & HC & HM).
  repeat split; try lia; tauto.
Qed.

(** X14: the rating, the three live tone values and the three committed
    tone values are integers from 1 to 10 in the initial state and remain
    so through every change of step and every sequence of inputs on the
    preview screen, where the sub-index stays among 0, 1, 2 and the stored
    message, once there is one, is the message of the committed values;
    the rating can therefore never be 0 or less, and the notice that asks
    for a rating is never raised. *)
Theorem preview_screen_reach (p0 : Panel) (cs : list PreviewControl) :
  previewInvariant initialPanel /\
  (previewInvariant p0 ->
   let r := runScreen previewScreen cs (enterStep p0) in
   0 <= subIndex (fst r) <= 2 /\
   previewInvariant (fst r) /\
   Forall (fun call => call <> Alert (lit "Please rate the preview to continue"))
          (snd r)).
Proof.
  split.
  - unfold previewInvariant. cbn. repeat split; try lia. now left.
  - intros H0. cbv zeta.
    apply (runScreen_invariant previewScreen
             (fun p calls => 0 <= subIndex p <= 2 /\ previewInvariant p /\
                Forall (fun call =>
                  call <> Alert (lit "Please rate the preview to continue")) calls)).
    + split; [cbn; lia|]. split; [now apply enterStep_previewInvariant|constructor].
    + intros c p calls r (Hs & HI & HF) E.
      destruct (previewScreen_step c p r Hs HI E) as (Hs' & HI' & HF').
      split; [exact Hs'|]. split; [exact HI'|]. apply Forall_app. auto.
Qed.

Lemma preview_screen_reach_witness :
  0 <= subIndex (fst (runScreen previewScreen previewClicks (enterStep initialPanel)))
    <= 2 /\
  previewInvariant
    (fst (runScreen previewScreen previewClicks (enterStep initialPanel))) /\
  Forall (fun call => call <> Alert (lit "Please rate the preview to continue"))
    (snd (runScreen previewScreen previewClicks (enterStep initialPanel))).
Proof.
  apply (proj2 (preview_screen_reach initialPanel previewClicks)).
  apply (proj1 (preview_screen_reach initialPanel [])).
Defined.

(** ** [commitPreviewFromSliders] and its timers *)

(** X15: a commit copies the three live tone values into the committed
    ones and touches nothing outside the preview cells: the sub-index, the
    intro flag, the answers of the five other steps, the rating and the
    live values stay as they were; a second commit without moving a slider
    gives the same state and the same timers. *)
Theorem commit_frame_and_idempotent (p : Panel) :
  let p' := fst (commitPreviewFromSliders p) in
  let v := previewControls p in
  let v' := previewControls p' in
  (commDirectness v', commWarmth v', commChallenge v')
    = (directness v, warmth v, challenge v) /\
  (directness v', warmth v', challenge v') = (directness v, warmth v, challenge v) /\
  previewRating v' = previewRating v /\
  showAdvancedPreviewControls v' = showAdvancedPreviewControls v /\
  setPreviewControls v p' = p /\
  commitPreviewFromSliders p' = (p', snd (commitPreviewFromSliders p)).
Proof.
  cbv zeta. unfold commitPreviewFromSliders. cbv zeta.
  cbn [fst snd previewControls setPreviewControls commDirectness commWarmth
       commChallenge directness warmth challenge previewRating
       showAdvancedPreviewControls subIndex showIntro languageAnswers
       identityAnswers methodAnswers exampleAnswers guardrailsAnswers
       previewMessage feedbackThumb feedbackRating selectedFeedbackChoice
       demoContent demoVisible bgGradient nextBgGradient bgFading].
  repeat split. destruct p; reflexivity.
Qed.

(** The state after the two timers of a commit fired, in either order. *)
Lemma timers_of_commit (p : Panel) :
  snd (commitPreviewFromSliders p)
  = [ SetTimeout (ShowDemo (gen (directness (previewControls p))
                                (warmth (previewControls p))
                                (challenge (previewControls p)))) 220;
      SetTimeout (SwapBackground
                    (computePreviewGradient
                       (inject_Z (directness (previewControls p)))
                       (inject_Z (warmth (previewControls p)))
                       (inject_Z (challenge (previewControls p))))) 360 ].
Proof. reflexivity. Qed.

(** X16: once both timers of a commit have fired, the demo text is the
    sentence chosen for the committed values and is visible again, the
    base background is the gradient of the committed values, the pending
    overlay is cleared and the fade flag is off; the order in which the two
    timers fire makes no difference to that state. *)
Theorem crossfade_completes (p : Panel) (demo bg : TimerAction) :
  snd (commitPreviewFromSliders p) = [SetTimeout demo 220; SetTimeout bg 360] ->
  let p1 := fst (commitPreviewFromSliders p) in
  let v1 := previewControls p1 in
  let p3 := fireTimer bg (fireTimer demo p1) in
  let v3 := previewControls p3 in
  demoVisible v1 = false /\ bgFading v1 = true /\
  demoContent v3 = gen (commDirectness v1) (commWarmth v1) (commChallenge v1) /\
  demoVisible v3 = true /\
  bgGradient v3 = computePreviewGradient (inject_Z (commDirectness v1))
                    (inject_Z (commWarmth v1)) (inject_Z (commChallenge v1)) /\
  nextBgGradient v3 = [] /\ bgFading v3 = false /\
  previewMessage v3 = previewMessage v1 /\
  fireTimer demo (fireTimer bg p1) = p3.
Proof.
  rewrite timers_of_commit. intros H. injection H as <- <-. cbv zeta.
  unfold commitPreviewFromSliders, fireTimer. cbv zeta.
  cbn [fst snd previewControls setPreviewControls commDirectness commWarmth
       commChallenge directness warmth challenge previewRating
       showAdvancedPreviewControls subIndex showIntro languageAnswers
       identityAnswers methodAnswers exampleAnswers guardrailsAnswers
       previewMessage feedbackThumb feedbackRating selectedFeedbackChoice
       demoContent demoVisible bgGradient nextBgGradient bgFading].
  repeat split.
Qed.

Lemma crossfade_completes_witness :
  let p := setSliders 9 2 9 initialPanel in
  let p1 := fst (commitPreviewFromSliders p) in
  let v1 := previewControls p1 in
  let demo := ShowDemo directnessDemo in
  let bg := SwapBackground (computePreviewGradient 9 2 9) in
  let p3 := fireTimer bg (fireTimer demo p1) in
  let v3 := previewControls p3 in
  demoVisible v1 = false /\ bgFading v1 = true /\
  demoContent v3 = gen (commDirectness v1) (commWarmth v1) (commChallenge v1) /\
  demoVisible v3 = true /\
  bgGradient v3 = computePreviewGradient (inject_Z (commDirectness v1))
                    (inject_Z (commWarmth v1)) (inject_Z (commChallenge v1)) /\
  nextBgGradient v3 = [] /\ bgFading v3 = false /\
  previewMessage v3 = previewMessage v1 /\
  fireTimer demo (fireTimer bg p1) = p3.
Proof.
  apply (crossfade_completes (setSliders 9 2 9 initialPanel)
           (ShowDemo directnessDemo)
           (SwapBackground (computePreviewGradient 9 2 9))).
  reflexivity.
Defined.

(** X17: timers are not cancelled. When a second commit follows before
    the background timer of the first has fired, that stale timer, firing
    during the second crossfade, installs the gradient of the first commit
    as the base layer, clears the pending overlay and switches the fade
    off although the committed values are those of the second commit; the
    background timer of the second commit then installs its gradient. *)
Theorem stale_timer_ends_later_crossfade (p : Panel) (d w c : Z) :
  let v := previewControls p in
  let firstBg := computePreviewGradient (inject_Z (directness v))
                   (inject_Z (warmth v)) (inject_Z (challenge v)) in
  let secondBg := computePreviewGradient (inject_Z d) (inject_Z w) (inject_Z c) in
  let p1 := fst (commitPreviewFromSliders p) in
  let p2 := fst (commitPreviewFromSliders (setSliders d w c p1)) in
  let mid := fireTimer (SwapBackground firstBg) p2 in
  let final := fireTimer (SwapBackground secondBg) mid in
  In (SetTimeout (SwapBackground firstBg) 360) (snd (commitPreviewFromSliders p)) /\
  (nextBgGradient (previewControls p2) = secondBg /\
   bgFading (previewControls p2) = true) /\
  (commDirectness (previewControls mid), commWarmth (previewControls mid),
   commChallenge (previewControls mid)) = (d, w, c) /\
  bgGradient (previewControls mid) = firstBg /\
  nextBgGradient (previewControls mid) = [] /\
  bgFading (previewControls mid) = false /\
  bgGradient (previewControls final) = secondBg.
Proof.
  cbv zeta. unfold commitPreviewFromSliders, fireTimer, setSliders. cbv zeta.
  cbn [fst snd previewControls setPreviewControls commDirectness commWarmth
       commChallenge directness warmth challenge previewRating
       showAdvancedPreviewControls subIndex showIntro languageAnswers
       identityAnswers methodAnswers exampleAnswers guardrailsAnswers
       previewMessage feedbackThumb feedbackRating selectedFeedbackChoice
       demoContent demoVisible bgGradient nextBgGradient bgFading].
  repeat split. right. left. reflexivity.
Qed.

(** ** The two selectors *)

Lemma challengeTweak_templates (c : Z) :
  challengeTweak c warmthMsg = warmthMsg /\
  challengeTweak c directnessMsg = directnessMsg /\
  challengeTweak c defaultMsg = defaultMsg.
Proof. unfold challengeTweak. destruct (c >=? 8); repeat split. Qed.

Lemma selectTemplate_three (d w : Z) :
  selectTemplate d w = warmthTemplate \/
  selectTemplate d w = directnessTemplate \/
  selectTemplate d w = defaultTemplate.
Proof.
  unfold selectTemplate.
  destruct ((w >=? 7) && (w >? d)); [auto|].
  destruct ((d >=? 7) && (d >=? w)); auto.
Qed.

(** X18: the message and the reflection stored by a commit do not depend
    on the challenge value: for every triple the stored pair is one of the
    three templates, the one chosen from directness and warmth; the
    rewrite guarded by challenge >= 8 leaves each of the three messages as
    it is. *)
Theorem message_independent_of_challenge (d w c : Z) :
  selectMessage d w c = selectTemplate d w /\
  (forall c', selectMessage d w c' = selectMessage d w c) /\
  (selectMessage d w c = warmthTemplate \/
   selectMessage d w c = directnessTemplate \/
   selectMessage d w c = defaultTemplate).
Proof.
  assert (H : forall x, selectMessage d w x = selectTemplate d w).
  { intros x. unfold selectMessage, withTweak.
    destruct (challengeTweak_templates x) as (H1 & H2 & H3).
    destruct (selectTemplate_three d w) as [-> | [-> | ->]];
      cbn [msg reflection warmthTemplate directnessTemplate defaultTemplate];
      now rewrite ?H1, ?H2, ?H3. }
  split; [apply H|]. split; [intros c'; now rewrite !H|].
  rewrite H. apply selectTemplate_three.
Qed.

Lemma demos_distinct :
  warmthDemo <> directnessDemo /\ warmthDemo <> challengeDemo /\
  warmthDemo <> defaultDemo /\ directnessDemo <> challengeDemo /\
  directnessDemo <> defaultDemo /\ challengeDemo <> defaultDemo.
Proof. repeat split; intros H; vm_compute in H; discriminate. Qed.

(** X19: the demo selector and the message selector agree on the two
    leading cases: the demo sentence is the warmth-led one exactly when the
    message template is, and the directness-led one exactly when the
    message template is; within the neutral template the demo sentence
    is the challenge sentence exactly when challenge is at least 7. *)
Theorem demo_selector_follows_template (d w c : Z) :
  (gen d w c = warmthDemo <-> selectTemplate d w = warmthTemplate) /\
  (gen d w c = directnessDemo <-> selectTemplate d w = directnessTemplate) /\
  (gen d w c = challengeDemo <->
     selectTemplate d w = defaultTemplate /\ c >= 7) /\
  (gen d w c = defaultDemo <->
     selectTemplate d w = defaultTemplate /\ c < 7).
Proof.
  destruct demos_distinct as (D1 & D2 & D3 & D4 & D5 & D6).
  destruct templates_distinct as (T1 & T2 & T3).
  unfold gen, selectTemplate.
  destruct ((w >=? 7) && (w >? d)).
  { repeat split; intros; try tauto; try congruence;
      try (destruct H; congruence). }
  destruct ((d >=? 7) && (d >=? w)).
  { repeat split; intros; try tauto; try congruence;
      try (destruct H; congruence). }
  destruct (c >=? 7) eqn:E.
  - assert (c >= 7) by lia.
    repeat split; intros; try tauto; try congruence; try lia;
      try (destruct H0; lia).
  - assert (c < 7) by lia.
    repeat split; intros; try tauto; try congruence; try lia;
      try (destruct H0; lia).
Qed.

(** ** Regular expressions: the matcher against the denotation *)

Lemma denotes_empty_inv (s : JsString.t) : ~ denotes REmpty s.
Proof. intros H. inversion H. Qed.

Lemma denotes_eps_inv (s : JsString.t) : denotes REps s -> s = [].
Proof. intros H. now inversion H. Qed.

Lemma denotes_class_inv (f : N -> bool) (s : JsString.t) :
  denotes (RClass f) s -> exists c, s = [c] /\ f c = true.
Proof. intros H. inversion H; subst. eauto. Qed.

Lemma denotes_seq_inv (r1 r2 : Regex) (s : JsString.t) :
  denotes (RSeq r1 r2) s ->
  exists s1 s2, s = s1 ++ s2 /\ denotes r1 s1 /\ denotes r2 s2.
Proof. intros H. inversion H; subst. eauto. Qed.

Lemma denotes_alt_inv (r1 r2 : Regex) (s : JsString.t) :
  denotes (RAlt r1 r2) s -> denotes r1 s \/ denotes r2 s.
Proof. intros H. inversion H; subst; auto. Qed.

Lemma nullable_spec (r : Regex) : nullable r = true <-> denotes r [].
Proof.
  induction r as [| |f|r1 IH1 r2 IH2|r1 IH1 r2 IH2|r IH]; cbn [nullable].
  - split; [discriminate|]. intros H. now apply denotes_empty_inv in H.
  - split; [constructor|reflexivity].
  - split; [discriminate|]. intros H.
    apply denotes_class_inv in H. destruct H as (c & E & _). discriminate.
  - rewrite andb_true_iff, IH1, IH2. split.
    + intros [H1 H2]. change (@nil N) with (@nil N ++ @nil N).
      now constructor.
    + intros H. apply denotes_seq_inv in H.
      destruct H as (s1 & s2 & E & H1 & H2). symmetry in E.
      apply app_eq_nil in E. destruct E as [-> ->]. auto.
  - rewrite orb_true_iff, IH1, IH2. split.
    + intros [H|H]; [now apply DenAltL | now apply DenAltR].
    + apply denotes_alt_inv.
  - split; [constructor|reflexivity].
Qed.

Lemma star_cons (r : Regex) (c : N) (s : JsString.t) :
  denotes (RStar r) (c :: s) ->
  exists s1 s2, s = s1 ++ s2 /\ denotes r (c :: s1) /\ denotes (RStar r) s2.
Proof.
  intros H. remember (RStar r) as r' eqn:Er. remember (c :: s) as cs eqn:Es.
  revert s Es. induction H as [| | | | | |r0 t1 t2 H1 _ H2 IH2]; intros s' Es;
    try discriminate.
  injection Er as ->. destruct t1 as [|c1 t1].
  - cbn in Es. apply IH2; [reflexivity|exact Es].
  - cbn in Es. injection Es as -> <-. eauto.
Qed.

Lemma deriv_spec (c : N) (r : Regex) (s : JsString.t) :
  denotes (deriv c r) s <-> denotes r (c :: s).
Proof.
  revert s.
  induction r as [| |f|r1 IH1 r2 IH2|r1 IH1 r2 IH2|r IH]; intros s; cbn [deriv].
  - split; intros H; now apply denotes_empty_inv in H.
  - split; intros H; [now apply denotes_empty_inv in H|].
    apply denotes_eps_inv in H. discriminate.
  - destruct (f c) eqn:E; split; intros H.
    + apply denotes_eps_inv in H. subst. now constructor.
    + apply denotes_class_inv in H. destruct H as (x & Ex & _).
      injection Ex as -> ->. constructor.
    + now apply denotes_empty_inv in H.
    + apply denotes_class_inv in H. destruct H as (x & Ex & Hx).
      injection Ex as -> ->. congruence.
  - assert (Hseq : denotes (RSeq (deriv c r1) r2) s ->
                   denotes (RSeq r1 r2) (c :: s)).
    { intros H. apply denotes_seq_inv in H.
      destruct H as (s1 & s2 & -> & H1 & H2).
      change (c :: s1 ++ s2) with ((c :: s1) ++ s2).
      constructor; [now apply IH1 | exact H2]. }
    assert (Hinv : denotes (RSeq r1 r2) (c :: s) ->
                   (denotes r1 [] /\ denotes r2 (c :: s)) \/
                   denotes (RSeq (deriv c r1) r2) s).
    { intros H. apply denotes_seq_inv in H.
      destruct H as (s1 & s2 & E & H1 & H2). destruct s1 as [|c1 s1].
      - cbn in E. subst. auto.
      - cbn in E. injection E as -> ->. right.
        constructor; [now apply IH1 | exact H2]. }
    destruct (nullable r1) eqn:En; split.
    + intros H. apply denotes_alt_inv in H. destruct H as [H|H]; [now apply Hseq|].
      change (c :: s) with ([] ++ c :: s).
      constructor; [now apply nullable_spec | now apply IH2].
    + intros H. destruct (Hinv H) as [[_ H2]|H'].
      * apply DenAltR. now apply IH2.
      * now apply DenAltL.
    + exact Hseq.
    + intros H. destruct (Hinv H) as [[H1 _]|H']; [|exact H'].
      apply nullable_spec in H1. congruence.
  - split; intros H; apply denotes_alt_inv in H; destruct H as [H|H];
      first [ apply DenAltL; now apply IH1 | apply DenAltR; now apply IH2 ].
  - split.
    + intros H. apply denotes_seq_inv in H.
      destruct H as (s1 & s2 & -> & H1 & H2).
      change (c :: s1 ++ s2) with ((c :: s1) ++ s2).
      constructor; [now apply IH | exact H2].
    + intros H. apply star_cons in H. destruct H as (s1 & s2 & -> & H1 & H2).
      constructor; [now apply IH | exact H2].
Qed.

Lemma matchesAll_spec (r : Regex) (s : JsString.t) :
  matchesAll r s = true <-> denotes r s.
Proof.
  unfold matchesAll. revert r. induction s as [|c s IH]; intros r; cbn [fold_left].
  - apply nullable_spec.
  - rewrite IH. apply deriv_spec.
Qed.

Lemma denotes_any_star (s : JsString.t) : denotes (RStar anyUnit) s.
Proof.
  induction s as [|c s IH]; [constructor|].
  change (c :: s) with ([c] ++ s). constructor; [now constructor | exact IH].
Qed.

Lemma regexTest_spec (r : Regex) (s : JsString.t) :
  regexTest r s = true <->
  exists pre mid post, s = pre ++ mid ++ post /\ denotes r mid.
Proof.
  unfold regexTest. rewrite matchesAll_spec. split.
  - intros H. apply denotes_seq_inv in H.
    destruct H as (pre & rest & -> & _ & H2). apply denotes_seq_inv in H2.
    destruct H2 as (mid & post & -> & Hm & _). eauto.
  - intros (pre & mid & post & -> & Hm).
    constructor; [apply denotes_any_star|].
    constructor; [exact Hm | apply denotes_any_star].
Qed.

Lemma notSpace_true (c : N) : notSpace c = true <-> isWhiteSpace c = false.
Proof. unfold notSpace. apply negb_true_iff. Qed.

Lemma denotes_star_class (f : N -> bool) (s : JsString.t) :
  denotes (RStar (RClass f)) s <-> Forall (fun c => f c = true) s.
Proof.
  split.
  - intros H. remember (RStar (RClass f)) as r eqn:Er.
    induction H as [| | | | | |r0 t1 t2 H1 _ H2 IH2]; try discriminate.
    + constructor.
    + injection Er as ->. apply denotes_class_inv in H1.
      destruct H1 as (c & -> & Hc). cbn. constructor; auto.
  - induction 1 as [|c s Hc _ IH]; [constructor|].
    change (c :: s) with ([c] ++ s). constructor; [now constructor | exact IH].
Qed.

Lemma denotes_solid (s : JsString.t) :
  denotes (RPlus (RClass notSpace)) s <-> solidRun s.
Proof.
  unfold RPlus, solidRun. split.
  - intros H. apply denotes_seq_inv in H.
    destruct H as (s1 & s2 & -> & H1 & H2).
    apply denotes_class_inv in H1. destruct H1 as (c & -> & Hc).
    apply denotes_star_class in H2. split; [discriminate|].
    cbn. constructor; [now apply notSpace_true|].
    eapply Forall_impl; [exact H2|]. intros x. apply notSpace_true.
  - intros [Hne HF]. destruct s as [|c s]; [congruence|].
    apply Forall_cons in HF. destruct HF as [Hc HF].
    change (c :: s) with ([c] ++ s).
    constructor; [constructor; now apply notSpace_true|].
    apply denotes_star_class. eapply Forall_impl; [exact HF|].
    intros x. apply notSpace_true.
Qed.

Lemma denotes_unit (u : N) (s : JsString.t) :
  denotes (RClass (N.eqb u)) s <-> s = [u].
Proof.
  split.
  - intros H. apply denotes_class_inv in H. destruct H as (c & -> & E).
    apply N.eqb_eq in E. now subst.
  - intros ->. constructor. apply N.eqb_refl.
Qed.

Lemma denotes_email (s : JsString.t) :
  denotes emailPattern s <->
  exists a b c, s = a ++ [atSign] ++ b ++ [fullStop] ++ c /\
                solidRun a /\ solidRun b /\ solidRun c.
Proof.
  unfold emailPattern. split.
  - intros H.
    apply denotes_seq_inv in H. destruct H as (a & r1 & -> & Ha & H).
    apply denotes_seq_inv in H. destruct H as (x & r2 & -> & Hx & H).
    apply denotes_seq_inv in H. destruct H as (b & r3 & -> & Hb & H).
    apply denotes_seq_inv in H. destruct H as (y & c & -> & Hy & Hc).
    apply denotes_unit in Hx, Hy. subst.
    exists a, b, c. rewrite <- !denotes_solid. auto.
  - intros (a & b & c & -> & Ha & Hb & Hc).
    constructor; [now apply denotes_solid|].
    constructor; [now apply denotes_unit|].
    constructor; [now apply denotes_solid|].
    constructor; [now apply denotes_unit|].
    now apply denotes_solid.
Qed.

(** ** The account form *)

Lemma validateEmail_shape (s : JsString.t) :
  validateEmail s = true <->
  exists pre a b c post,
    s = pre ++ a ++ [atSign] ++ b ++ [fullStop] ++ c ++ post /\
    solidRun a /\ solidRun b /\ solidRun c.
Proof.
  unfold validateEmail. rewrite regexTest_spec. split.
  - intros (pre & mid & post & -> & Hm). apply denotes_email in Hm.
    destruct Hm as (a & b & c & -> & Ha & Hb & Hc).
    exists pre, a, b, c, post. rewrite <- !app_assoc. auto.
  - intros (pre & a & b & c & post & -> & Ha & Hb & Hc).
    exists pre, (a ++ [atSign] ++ b ++ [fullStop] ++ c), post.
    split; [now rewrite <- !app_assoc|].
    apply denotes_email. eauto 10.
Qed.

Lemma validateEmail_length (s : JsString.t) :
  validateEmail s = true -> (5 <= length s)%nat.
Proof.
  intros Hv. apply validateEmail_shape in Hv.
  destruct Hv as (pre & a & b & c & post & -> & [Ha _] & [Hb _] & [Hc _]).
  rewrite !length_app. cbn [length].
  destruct a, b, c; try congruence; cbn [length]; lia.
Qed.

(** X21: [validateEmail] accepts exactly the strings that contain,
    somewhere, a run of non-space characters, an at sign, a run of
    non-space characters, a full stop and a run of non-space characters,
    each run at least one character long; the match is not anchored, so
    anything may stand before and after it. An accepted string holds an
    at sign and a full stop and has at least five code units. *)
Theorem validateEmail_spec (s : JsString.t) :
  (validateEmail s = true <->
   exists pre a b c post,
     s = pre ++ a ++ [atSign] ++ b ++ [fullStop] ++ c ++ post /\
     solidRun a /\ solidRun b /\ solidRun c) /\
  (validateEmail s = true ->
   atSign ∈ s /\ fullStop ∈ s /\ (5 <= length s)%nat).
Proof.
  split; [apply validateEmail_shape|]. intros Hv.
  pose proof (validateEmail_length s Hv) as Hl.
  apply validateEmail_shape in Hv.
  destruct Hv as (pre & a & b & c & post & -> & _).
  repeat split.
  - apply elem_of_app; right. apply elem_of_app; right. cbn. left.
  - apply elem_of_app; right. apply elem_of_app; right. cbn. right.
    apply elem_of_app; right. left.
  - exact Hl.
Qed.

Lemma validateEmail_spec_witness :
  atSign ∈ email sampleForm /\ fullStop ∈ email sampleForm /\
  (5 <= length (email sampleForm))%nat.
Proof.
  apply (proj2 (validateEmail_spec (email sampleForm))).
  vm_compute. reflexivity.
Defined.

(** X22: submitting the form opens the welcome modal exactly when the
    first name, the last name and the e-mail are non-empty and the e-mail
    passes [validateEmail]; the payload then carries the password only
    when the password toggle is on. Otherwise one notice is raised and
    the form state stays as it is. Names are not trimmed: a name made of
    spaces counts as given. *)
Theorem handleSubmit_guard (f : FormState) :
  let ok := firstName f <> [] /\ lastName f <> [] /\
            validateEmail (email f) = true in
  (ok ->
   handleSubmit f = (setShowModal true f, [ConsoleLog (payloadOf f)]) /\
   (formPassword (payloadOf f) <> None <-> usePassword f = true)) /\
  (~ ok ->
   exists notice, handleSubmit f = (f, [FormAlert notice])).
Proof.
  cbv zeta. unfold handleSubmit.
  assert (He : validateEmail (email f) = true -> email f <> []).
  { intros Hv. pose proof (validateEmail_length (email f) Hv) as Hl.
    intros E. rewrite E in Hl. cbn in Hl. lia. }
  split.
  - intros (H1 & H2 & H3). specialize (He H3).
    destruct (firstName f); [congruence|].
    destruct (lastName f); [congruence|].
    destruct (email f) eqn:Ee; [congruence|]. rewrite H3. cbn [isEmptyString orb negb].
    split; [reflexivity|]. unfold payloadOf. cbn [formPassword].
    destruct (usePassword f); split; congruence.
  - intros Hno.
    destruct (isEmptyString (firstName f) || isEmptyString (lastName f)
              || isEmptyString (email f) || negb (validateEmail (email f))) eqn:E;
      [eauto|].
    exfalso. apply Hno.
    apply orb_false_iff in E. destruct E as [E E4].
    apply orb_false_iff in E. destruct E as [E E3].
    apply orb_false_iff in E. destruct E as [E1 E2].
    apply negb_false_iff in E4.
    destruct (firstName f); [discriminate|].
    destruct (lastName f); [discriminate|]. repeat split; congruence.
Qed.

Lemma handleSubmit_guard_witness :
  handleSubmit sampleForm
    = (setShowModal true sampleForm, [ConsoleLog (payloadOf sampleForm)]) /\
  (formPassword (payloadOf sampleForm) <> None <-> usePassword sampleForm = true).
Proof.
  apply (proj1 (handleSubmit_guard sampleForm)).
  repeat split; vm_compute; discriminate || reflexivity.
Defined.

(** ** The server route [pages/api/geo.ts] *)

Lemma geoHandler_miss (fetch : JsString.t -> option Json) (now : Z)
    (lastGeo : option GeoCache) :
  geoStale now lastGeo ->
  exists r,
    geoHandler fetch now lastGeo
    = ({| status := 200; cached := false; body := r |},
       Some {| ts := now; result := r |}) /\
    r = match tryServices fetch SERVICES with
        | Some r' => r'
        | None => geoFallback
        end.
Proof.
  intros H. eexists. split; [|reflexivity].
  unfold geoHandler, geoStale in *. destruct lastGeo as [c|]; [|reflexivity].
  rewrite (proj2 (Z.ltb_ge _ _)) by exact H. reflexivity.
Qed.





Lemma tryServices_all_fail (fetch : JsString.t -> option Json)
    (services : list JsString.t) :
  Forall (serviceFails fetch) services -> tryServices fetch services = None.
Proof.
  induction 1 as [|s rest Hs _ IH]; [reflexivity|].
  cbn [tryServices]. unfold serviceFails in Hs.
  destruct (fetch s) as [data|]; [|exact IH]. now rewrite Hs.
Qed.

Lemma tryServices_first (fetch : JsString.t -> option Json)
    (before after : list JsString.t) (s : JsString.t) (data : Json) :
  Forall (serviceFails fetch) before ->
  fetch s = Some data -> jsonTruthy data = true ->
  tryServices fetch (before ++ s :: after)
  = Some {| source := s; country_name := countryNameOf data; raw := data |}.
Proof.
  intros Hb Hf Ht. induction Hb as [|x rest Hx _ IH].
  - cbn [app tryServices]. now rewrite Hf, Ht.
  - cbn [app tryServices]. unfold serviceFails in Hx.
    destruct (fetch x) as [d|]; [|exact IH]. now rewrite Hx.
Qed.

Lemma orElse_truthy (a : option Json) (b : Json) :
  jsonTruthy b = true \/ b = JStr [] ->
  jsonTruthy (orElse a b) = true \/ orElse a b = JStr [].
Proof.
  intros Hb. unfold orElse. destruct a as [j|]; [|exact Hb].
  destruct (jsonTruthy j) eqn:E; auto.
Qed.

(** X24: when the cache does not answer, the route asks the services in
    their order and answers from the first one that delivers a truthy
    body, naming it as the source and passing its body on as [raw]; a
    service that throws or delivers a falsy body is skipped; when none
    delivers, the answer is the fallback with source "none" and an empty
    country name, and that answer is cached like any other. The country
    name in the answer is a truthy value or the empty string. *)
Theorem geo_first_delivering_service
    (fetch : JsString.t -> option Json) (now : Z) (lastGeo : option GeoCache) :
  geoStale now lastGeo ->
  let answer := body (fst (geoHandler fetch now lastGeo)) in
  (Forall (serviceFails fetch) SERVICES -> answer = geoFallback) /\
  (forall before s after data,
     SERVICES = before ++ s :: after ->
     Forall (serviceFails fetch) before ->
     fetch s = Some data -> jsonTruthy data = true ->
     answer = {| source := s; country_name := countryNameOf data; raw := data |}) /\
  (jsonTruthy (country_name answer) = true \/ country_name answer = JStr []) /\
  snd (geoHandler fetch now lastGeo) = Some {| ts := now; result := answer |}.
Proof.
  intros Hs. cbv zeta.
  destruct (geoHandler_miss fetch now lastGeo Hs) as (r & -> & Hr).
  cbn [fst snd body]. repeat split.
  - intros Hall. rewrite Hr, (tryServices_all_fail fetch SERVICES Hall).
    reflexivity.
  - intros before s after data E Hb Hf Ht.
    rewrite Hr, E, (tryServices_first fetch before after s data Hb Hf Ht).
    reflexivity.
  - rewrite Hr. clear Hr. generalize SERVICES. intros l.
    induction l as [|s rest IH]; cbn [tryServices].
    + right. reflexivity.
    + destruct (fetch s) as [data|]; [|exact IH].
      destruct (jsonTruthy data); [|exact IH].
      cbn [country_name]. unfold countryNameOf.
      repeat apply orElse_truthy. now right.
Qed.

Lemma geo_first_delivering_service_witness :
  body (fst (geoHandler sampleFetch 1000 None))
  = {| source := lit "https://ipwhois.app/json/";
       country_name := JStr (lit "Netherlands");
       raw := JObj [ (lit "ip", JStr (lit "192.0.2.1"));
                     (lit "country", JStr (lit "Netherlands")) ] |}.
Proof.
  apply (proj1 (proj2 (geo_first_delivering_service sampleFetch 1000 None I))
           [lit "https://ipapi.co/json/"] (lit "https://ipwhois.app/json/")
           [lit "https://extreme-ip-lookup.com/json/"]
           (JObj [ (lit "ip", JStr (lit "192.0.2.1"));
                   (lit "country", JStr (lit "Netherlands")) ])).
  - reflexivity.
  - repeat constructor.
  - reflexivity.
  - reflexivity.
Defined.

(** ** [computePreviewGradient] on the values of the sliders *)

Lemma slider_triples_all (check : Z -> Z -> Z -> bool) (d w c : Z) :
  onSliderTriples check = true ->
  1 <= d <= 10 -> 1 <= w <= 10 -> 1 <= c <= 10 ->
  check d w c = true.
Proof.
  unfold onSliderTriples. intros H Hd Hw Hc.
  rewrite forallb_forall in H. specialize (H d (sliderValues_spec d Hd)).
  rewrite forallb_forall in H. specialize (H w (sliderValues_spec w Hw)).
  rewrite forallb_forall in H. exact (H c (sliderValues_spec c Hc)).
Qed.



Lemma slider_stops_evaluated : onSliderTriples sliderStopsChecked = true.
Proof. vm_compute. reflexivity. Qed.



Section OnDoubles.

Import PrimFloat.
Local Open Scope float_scope.






(** X20: for every triple of slider values the four stops the code prints
    into the gradient, computed in doubles, are integers, strictly
    increasing and strictly between 0 and 100, each boundary being blended
    over exactly four points, so that the clamps [Math.max(0, .)] and
    [Math.min(100, .)] do not take effect; and the exact model has the
    same four stops and prints the same gradient. *)
Theorem slider_gradient_stops (d w c : Z) :
  (1 <= d <= 10)%Z -> (1 <= w <= 10)%Z -> (1 <= c <= 10)%Z ->
  exists s1a s1b s2a s2b : Z,
    (let '(a, b, a', b') :=
       Double.gradientStops (Double.ofZ d) (Double.ofZ w) (Double.ofZ c) in
     List.map Double.toZ [a; b; a'; b']
     = [Some s1a; Some s1b; Some s2a; Some s2b]) /\
    gradientStops (inject_Z d) (inject_Z w) (inject_Z c) = (s1a, s1b, s2a, s2b) /\
    Double.computePreviewGradient (Double.ofZ d) (Double.ofZ w) (Double.ofZ c)
    = Some (computePreviewGradient (inject_Z d) (inject_Z w) (inject_Z c)) /\
    Double.computePreviewGradient (Double.ofZ d) (Double.ofZ w) (Double.ofZ c)
    = Some (renderGradient (s1a, s1b, s2a, s2b)) /\
    (0 < s1a /\ s1a < s1b /\ s1b < s2a /\ s2a < s2b /\ s2b < 100 /\
     s1b - s1a = 4 /\ s2b - s2a = 4)%Z.
Proof.
  intros Hd Hw Hc.
  pose proof (slider_triples_all sliderStopsChecked d w c
                slider_stops_evaluated Hd Hw Hc) as H.
  unfold sliderStopsChecked in H.
  destruct (Double.gradientStops (Double.ofZ d) (Double.ofZ w) (Double.ofZ c))
    as [[[a b] a'] b'].
  assert (Er : computePreviewGradient (inject_Z d) (inject_Z w) (inject_Z c)
               = renderGradient
                   (gradientStops (inject_Z d) (inject_Z w) (inject_Z c)))
    by reflexivity.
  destruct (gradientStops (inject_Z d) (inject_Z w) (inject_Z c))
    as [[[s1a s1b] s2a] s2b].
  exists s1a, s1b, s2a, s2b.
  apply andb_true_iff in H. destruct H as [H H3].
  apply andb_true_iff in H. destruct H as [H1 H2].
  apply bool_decide_eq_true in H1, H2.
  split; [exact H1|]. split; [reflexivity|]. split; [exact H2|].
  split; [now rewrite H2, Er|].
  repeat (apply andb_true_iff in H3; destruct H3 as [H3 ?]).
  repeat split; first [now apply Z.ltb_lt | now apply Z.eqb_eq].
Qed.

Lemma slider_gradient_stops_witness :
  exists s1a s1b s2a s2b : Z,
    (let '(a, b, a', b') :=
       Double.gradientStops (Double.ofZ 3) (Double.ofZ 8) (Double.ofZ 5) in
     List.map Double.toZ [a; b; a'; b']
     = [Some s1a; Some s1b; Some s2a; Some s2b]) /\
    gradientStops (inject_Z 3) (inject_Z 8) (inject_Z 5) = (s1a, s1b, s2a, s2b) /\
    Double.computePreviewGradient (Double.ofZ 3) (Double.ofZ 8) (Double.ofZ 5)
    = Some (computePreviewGradient (inject_Z 3) (inject_Z 8) (inject_Z 5)) /\
    Double.computePreviewGradient (Double.ofZ 3) (Double.ofZ 8) (Double.ofZ 5)
    = Some (renderGradient (s1a, s1b, s2a, s2b)) /\
    (0 < s1a /\ s1a < s1b /\ s1b < s2a /\ s2a < s2b /\ s2b < 100 /\
     s1b - s1a = 4 /\ s2b - s2a = 4)%Z.
Proof.
  apply (slider_gradient_stops 3 8 5); lia.
Defined.

End OnDoubles.

(** ** What the reset effect leaves alone *)

(** X25: the effect that runs when the step changes resets the "Other"
    toggles of the second, fourth and fifth identity question but not the
    one of the third: whatever the step entered and whatever the state,
    that toggle is after the effect what it was before, while the text
    typed under it is cleared. *)
Theorem q3_other_toggle_survives_reset
    (h : Home) (p : Panel) (sid : JsString.t) :
  currentStepId h = Some sid ->
  let a := identityAnswers (snd (onStepIdChange h p)) in
  q3OtherOpen a = q3OtherOpen (identityAnswers p) /\
  q3OtherText a = [] /\
  q2OtherOpen a = false /\ q4OtherOpen a = false /\ q5OtherOpen a = false.
Proof.
  intros Hid. cbv zeta. unfold onStepIdChange. rewrite Hid.
  cbn. repeat split.
Qed.

Lemma q3_other_toggle_survives_reset_witness :
  let p := setIdentityAnswers
             (setQ3 None true (lit "Go on") emptyIdentity) initialPanel in
  let a := identityAnswers (snd (onStepIdChange (handleStart initialHome) p)) in
  q3OtherOpen a = q3OtherOpen (identityAnswers p) /\
  q3OtherText a = [] /\
  q2OtherOpen a = false /\ q4OtherOpen a = false /\ q5OtherOpen a = false.
Proof.
  apply (q3_other_toggle_survives_reset (handleStart initialHome)
           (setIdentityAnswers (setQ3 None true (lit "Go on") emptyIdentity)
              initialPanel) (lit "language")).
  reflexivity.
Defined.
